(** * Book pipeline (dags/app.py): fetch, clean, upsert

    A shallow embedding of the Airflow DAG [fetch_and_store_books_with_google_api]
    and of its two Python callables, followed by the properties of the
    pipeline specification that can be settled on it.

    Conventions.
    - A Python [int] is a [Z]; a Python [str] is a [string], one [ascii]
      standing for one character.
    - A JSON number is kept as the text Python's [str()] gives for it: the
      code only ever formats numbers into f-strings.
    - The fields of the API payload the code only stores, compares or
      formats (title, saleability, amount, currency code, ratings) have the
      JSON type the API documents.  The values the code calls a method on
      (an item, its [volumeInfo], [saleInfo], [retailPrice], [authors]) can
      be of any JSON kind, and raise what Python raises on them.
    - The tasks run in a small state-and-exception monad over a [World]
      that holds what the tasks can touch: the requests sent, the XCom
      store, the [book] table with its id sequence, and the log.  State
      changes made before an exception is raised stay made.
    - What the tasks cannot control is a section variable: the answer of
      the network, the faults of the database connection, and the
      module-level binding of [generate_sample_book_data]. *)

From Stdlib Require Import ZArith List String Ascii Bool Arith Lia DecimalString.
Import ListNotations.

Open Scope string_scope.
Open Scope Z_scope.

(** ** Python primitives *)

(** [str(n)] for an int. *)
Definition str_of_int (n : Z) : string := NilZero.string_of_int (Z.to_int n).

(** [s[:n]] for a literal bound [n >= 0]. *)
Definition str_slice (n : nat) (s : string) : string := substring 0 n s.

(** [l[:n]] and [df.head(n)]: a negative [n] drops the last [-n] elements. *)
Definition slice_to {A : Type} (n : Z) (l : list A) : list A :=
  if 0 <=? n then firstn (Z.to_nat n) l
  else firstn (List.length l - Z.to_nat (- n)) l.

(** [sep.join(l)]. *)
Fixpoint join (sep : string) (l : list string) : string :=
  match l with
  | [] => ""
  | [s] => s
  | s :: rest => s ++ sep ++ join sep rest
  end.

(** A JSON number, by its [str()] text. *)
Inductive number : Type := Number (text : string).

(** What [d.get(key, 'N/A')] can yield on a numeric field: the number, or
    the default string. *)
Inductive value : Type :=
| VNum (n : number)
| VStr (s : string).

Definition py_str (v : value) : string :=
  match v with
  | VNum (Number text) => text
  | VStr s => s
  end.

(** [v != s] for a string literal [s]: a number never equals a string. *)
Definition value_ne_str (v : value) (s : string) : bool :=
  match v with
  | VNum _ => true
  | VStr s' => negb (s' =? s)%string
  end.

(** [d.get(key, default)] on an optional field. *)
Definition get {A : Type} (field : option A) (default : A) : A :=
  match field with
  | Some a => a
  | None => default
  end.

(** ** Exceptions *)

Inductive exn : Type :=
| RequestException (msg : string)
| JSONDecodeError (msg : string)
| AttributeError (msg : string)
| TypeError (msg : string)
| NameError (name : string)
| ValueError (msg : string)
| DatabaseError (msg : string)
| Exception (msg : string).

(** [str(e)]. *)
Definition exn_str (e : exn) : string :=
  match e with
  | RequestException msg => msg
  | JSONDecodeError msg => msg
  | AttributeError msg => msg
  | TypeError msg => msg
  | NameError name => "name '" ++ name ++ "' is not defined"
  | ValueError msg => msg
  | DatabaseError msg => msg
  | Exception msg => msg
  end.

(** [isinstance(e, requests.RequestException)]; the error [response.json()]
    raises is [requests.exceptions.JSONDecodeError], a subclass. *)
Definition is_RequestException (e : exn) : bool :=
  match e with
  | RequestException _ | JSONDecodeError _ => true
  | _ => false
  end.

Inductive result (A : Type) : Type :=
| Ok (a : A)
| Raise (e : exn).
Arguments Ok {A} a.
Arguments Raise {A} e.

(** ** JSON values, as [response.json()] builds them *)

(** Any JSON value: [None], a [bool], an [int], a [float] (by its [str()]
    text), a [str], a [list], or a [dict] (its items, keys distinct, in
    order). *)
#[warnings="-register-all"] Inductive json : Type :=
| JNull
| JBool (b : bool)
| JInt (n : Z)
| JFloat (text : string)
| JString (s : string)
| JArray (elements : list json)
| JObject (members : list (string * json)).

(** A JSON value that is not an object. *)
Inductive non_dict : Type :=
| NotDictNull
| NotDictBool (b : bool)
| NotDictInt (n : Z)
| NotDictFloat (text : string)
| NotDictString (s : string)
| NotDictArray (elements : list json).

(** [type(v).__name__]. *)
Definition type_name (v : json) : string :=
  match v with
  | JNull => "NoneType"
  | JBool _ => "bool"
  | JInt _ => "int"
  | JFloat _ => "float"
  | JString _ => "str"
  | JArray _ => "list"
  | JObject _ => "dict"
  end.

Definition non_dict_type_name (v : non_dict) : string :=
  match v with
  | NotDictNull => "NoneType"
  | NotDictBool _ => "bool"
  | NotDictInt _ => "int"
  | NotDictFloat _ => "float"
  | NotDictString _ => "str"
  | NotDictArray _ => "list"
  end.

(** The truth value of a value that is not an object: [None], [False],
    zero, the empty string and the empty list are false. *)
Definition non_dict_truthy (v : non_dict) : bool :=
  match v with
  | NotDictNull => false
  | NotDictBool b => b
  | NotDictInt n => negb (n =? 0)
  | NotDictFloat text => negb ((text =? "0.0")%string || (text =? "-0.0")%string)
  | NotDictString s => negb (s =? "")%string
  | NotDictArray elements =>
      match elements with
      | [] => false
      | _ :: _ => true
      end
  end.

(** A value the code expects to be an object: the object, or a value of
    another kind. *)
Inductive field (A : Type) : Type :=
| Object (a : A)
| NotObject (v : non_dict).
Arguments Object {A} a.
Arguments NotObject {A} v.

(** What [v.get(...)] raises on a value that is not an object. *)
Definition no_attribute_get (v : non_dict) : exn :=
  AttributeError ("'" ++ non_dict_type_name v ++ "' object has no attribute 'get'").

(** The first [v.get(...)] on such a value: [AttributeError] unless it is
    an object. *)
Definition as_dict {A : Type} (v : field A) : result A :=
  match v with
  | Object a => Ok a
  | NotObject v => Raise (no_attribute_get v)
  end.

(** [bool(v)] on such a value, the truth value of an object given. *)
Definition field_truthy {A : Type} (object_truthy : A -> bool) (v : field A) : bool :=
  match v with
  | Object a => object_truthy a
  | NotObject v => non_dict_truthy v
  end.

(** One statement after another, the first exception ending them. *)
Definition and_then {A B : Type} (r : result A) (k : A -> result B) : result B :=
  match r with
  | Ok a => k a
  | Raise e => Raise e
  end.

Notation "'let!' x ':=' r 'in' k" := (and_then r (fun x => k))
  (at level 10, x name, r at level 100, k at level 200).

(** The strings of a list that [str.join] is given, from position [i] on:
    the first element that is not a [str] raises [TypeError]. *)
Fixpoint strings_of (i : nat) (elements : list json) : result (list string) :=
  match elements with
  | [] => Ok []
  | JString s :: rest =>
      match strings_of (S i) rest with
      | Ok strings => Ok (s :: strings)
      | Raise e => Raise e
      end
  | v :: _ =>
      Raise (TypeError ("sequence item " ++ str_of_int (Z.of_nat i)
                        ++ ": expected str instance, " ++ type_name v ++ " found"))
  end.

(** [sep.join(v)] for any JSON value [v]: a list is joined if its elements
    are strings, a string is iterated by character, a dict by key, and
    nothing else is iterable. *)
Definition py_join (sep : string) (v : json) : result string :=
  match v with
  | JArray elements =>
      match strings_of 0 elements with
      | Ok strings => Ok (join sep strings)
      | Raise e => Raise e
      end
  | JString s => Ok (join sep (map (fun c => String c "") (list_ascii_of_string s)))
  | JObject members => Ok (join sep (map fst members))
  | JNull | JBool _ | JInt _ | JFloat _ => Raise (TypeError "can only join an iterable")
  end.

(** ** Data model *)

(** The dict appended to [books]: keys [title], [author], [price], [rating]. *)
Module Book.
Record t : Type := mk {
  title : string;
  author : string;
  price : string;
  rating : string
}.
End Book.

(** The API payload (Google Books [volumes] resource), every key optional. *)
Module RetailPrice.
Record t : Type := mk {
  amount : option number;
  currencyCode : option string
}.
(** Truth value of the dict: [False] exactly for [{}].  Keys the code
    never reads are not part of the record; a dict holding only such
    keys has no [amount] and yields the same price as [{}] does. *)
Definition truthy (d : t) : bool :=
  match amount d, currencyCode d with
  | None, None => false
  | _, _ => true
  end.
End RetailPrice.

Module SaleInfo.
Record t : Type := mk {
  saleability : option string;
  retailPrice : option (field RetailPrice.t)
}.
Definition empty : t := mk None None.
End SaleInfo.

Module VolumeInfo.
Record t : Type := mk {
  title : option string;
  authors : option json;
  averageRating : option number;
  ratingsCount : option number
}.
Definition empty : t := mk None None None None.
End VolumeInfo.

(** An element of [items]: a volume object, or a value that is not an
    object (on which [item.get] raises [AttributeError]). *)
Inductive item : Type :=
| Volume (volumeInfo : option (field VolumeInfo.t)) (saleInfo : option (field SaleInfo.t))
| NotAnObject (v : non_dict).

(** The JSON document of a response; the code reads its key [items]. *)
Module Document.
Record t : Type := mk { items : option (list item) }.
End Document.

(** The body of a response: text that does not parse, or a document. *)
Inductive body : Type :=
| InvalidJson (msg : string)
| Json (data : Document.t).

Module Response.
Record t : Type := mk {
  status_code : Z;
  content : body
}.
End Response.

(** What [requests.get(url, timeout=30)] meets: no response at all, or one. *)
Inductive http_result : Type :=
| ConnectionFailed (msg : string)
| Responded (response : Response.t).

Module Request.
Record t : Type := mk {
  url : string;
  timeout : Z
}.
End Request.

(** A statement that fails: the message of the error, and whether the
    server had drawn the id of the new row from the sequence before it
    rejected the statement (a statement that never reached the server has
    drawn none). *)
Module Fault.
Record t : Type := mk {
  message : string;
  id_drawn : bool
}.
End Fault.

(** A row of table [book]. *)
Module Row.
Record t : Type := mk {
  id : Z;
  title : string;
  authors : string;
  price : string;
  rating : string
}.
End Row.

(** The table and the sequence behind its [SERIAL] column. *)
Record Db : Type := mkDb {
  book : list Row.t;
  book_id_seq : Z
}.

Inductive level : Type := INFO | ERROR.

Definition xcom_store : Type := list ((string * string) * list Book.t).

Record World : Type := mkWorld {
  sent : list Request.t;
  xcom : xcom_store;
  db : Db;
  log : list (level * string)
}.

(** ** The task monad *)

Definition M (A : Type) : Type := World -> result A * World.

Definition ret {A : Type} (a : A) : M A := fun w => (Ok a, w).

Definition bind {A B : Type} (m : M A) (k : A -> M B) : M B :=
  fun w =>
    match m w with
    | (Ok a, w') => k a w'
    | (Raise e, w') => (Raise e, w')
    end.

Definition raise {A : Type} (e : exn) : M A := fun w => (Raise e, w).

(** [try: m except Exception as e: handler(e)]. *)
Definition try_except {A : Type} (m : M A) (handler : exn -> M A) : M A :=
  fun w =>
    match m w with
    | (Ok a, w') => (Ok a, w')
    | (Raise e, w') => handler e w'
    end.

Declare Scope task_scope.
Delimit Scope task_scope with task.
Notation "x <- m ;; k" := (bind m (fun x => k))
  (at level 61, m at next level, right associativity) : task_scope.
Notation "m ;; k" := (bind m (fun _ => k))
  (at level 61, right associativity) : task_scope.
Open Scope task_scope.

Definition logging_info (msg : string) : M unit :=
  fun w => (Ok tt, mkWorld (sent w) (xcom w) (db w) (log w ++ [(INFO, msg)])%list).

Definition logging_error (msg : string) : M unit :=
  fun w => (Ok tt, mkWorld (sent w) (xcom w) (db w) (log w ++ [(ERROR, msg)])%list).

(** ** XCom *)

Module TaskInstance.
Record t : Type := mk { task_id : string }.
End TaskInstance.

Definition xcom_key_eqb (a b : string * string) : bool :=
  ((fst a =? fst b)%string && (snd a =? snd b)%string)%bool.

Fixpoint xcom_lookup (k : string * string) (s : xcom_store) : option (list Book.t) :=
  match s with
  | [] => None
  | (k', v) :: rest => if xcom_key_eqb k k' then Some v else xcom_lookup k rest
  end.

Definition xcom_set (k : string * string) (v : list Book.t) (s : xcom_store) : xcom_store :=
  (k, v) :: filter (fun e => negb (xcom_key_eqb k (fst e))) s.

(** [ti.xcom_push(key=key, value=value)]: stored under the pushing task. *)
Definition xcom_push (ti : TaskInstance.t) (key : string) (value : list Book.t) : M unit :=
  fun w =>
    (Ok tt,
     mkWorld (sent w) (xcom_set (TaskInstance.task_id ti, key) value (xcom w)) (db w) (log w)).

(** [ti.xcom_pull(key=key, task_ids=task_ids)]: [None] when nothing was pushed. *)
Definition xcom_pull (key task_ids : string) : M (option (list Book.t)) :=
  fun w => (Ok (xcom_lookup (task_ids, key) (xcom w)), w).

Definition lift {A : Type} (r : result A) : M A := fun w => (r, w).

(** ** Parsing one API item (app.py, lines 38-66) *)

Definition saleability_is (sale_info : SaleInfo.t) (s : string) : bool :=
  match SaleInfo.saleability sale_info with
  | Some s' => (s' =? s)%string
  | None => false
  end.

(** Lines 44-53, [sale_info] being an object. *)
Definition derive_price (sale_info : SaleInfo.t) : result string :=
  let price := "N/A" in
  if saleability_is sale_info "FOR_SALE" then
    let price_info :=
      get (SaleInfo.retailPrice sale_info) (Object (RetailPrice.mk None None)) in
    if field_truthy RetailPrice.truthy price_info then
      let! price_info := as_dict price_info in
      let amount := get (option_map VNum (RetailPrice.amount price_info)) (VStr "N/A") in
      let currency := get (RetailPrice.currencyCode price_info) "$" in
      Ok (if value_ne_str amount "N/A" then py_str amount ++ " " ++ currency else "N/A")
    else Ok price
  else if saleability_is sale_info "FREE" then Ok "Free"
  else Ok price.

(** Lines 55-59, and the [str(rating)] of line 65, [volume_info] being an
    object. *)
Definition derive_rating (volume_info : VolumeInfo.t) : string :=
  let rating := get (option_map VNum (VolumeInfo.averageRating volume_info)) (VStr "N/A") in
  let rating_count :=
    get (option_map VNum (VolumeInfo.ratingsCount volume_info)) (VNum (Number "0")) in
  let rating :=
    if value_ne_str rating "N/A"
    then VStr (py_str rating ++ "/5 (" ++ py_str rating_count ++ " reviews)")
    else rating in
  py_str rating.

(** The body of the [for] loop: the dict appended for one item, or the
    exception of the first statement that raises: [item.get] (line 38),
    [volume_info.get] (line 41), [join] (line 42), [sale_info.get] (line
    46), [price_info.get] (line 49). *)
Definition parse_item (it : item) : result Book.t :=
  match it with
  | NotAnObject v => Raise (no_attribute_get v)
  | Volume volumeInfo saleInfo =>
      let volume_info := get volumeInfo (Object VolumeInfo.empty) in
      let sale_info := get saleInfo (Object SaleInfo.empty) in
      let! volume_info := as_dict volume_info in
      let title := get (VolumeInfo.title volume_info) "Unknown Title" in
      let! authors :=
        py_join ", " (get (VolumeInfo.authors volume_info)
                          (JArray [JString "Unknown Author"])) in
      let! sale_info := as_dict sale_info in
      let! price := derive_price sale_info in
      let rating := derive_rating volume_info in
      Ok (Book.mk title authors price rating)
  end.

(** The [for] loop of line 37 over an already sliced list, appending to
    [books]; an exception leaves the loop at once. *)
Fixpoint process_items (items : list item) (books : list Book.t) : result (list Book.t) :=
  match items with
  | [] => Ok books
  | it :: rest =>
      match parse_item it with
      | Ok b => process_items rest (books ++ [b])%list
      | Raise e => Raise e
      end
  end.

(** ** Cleaning (app.py, lines 90-104), the specification's [normalize] *)

(** [df.drop_duplicates(subset='title')]: the first row of each title stays. *)
Fixpoint drop_duplicates_seen (seen : list string) (df : list Book.t) : list Book.t :=
  match df with
  | [] => []
  | b :: rest =>
      if existsb (String.eqb (Book.title b)) seen
      then drop_duplicates_seen seen rest
      else b :: drop_duplicates_seen (Book.title b :: seen) rest
  end.

Definition drop_duplicates (df : list Book.t) : list Book.t :=
  drop_duplicates_seen [] df.

(** Lines 99-102 on one row. *)
Definition str_columns (b : Book.t) : Book.t :=
  Book.mk (str_slice 200 (Book.title b)) (str_slice 200 (Book.author b))
          (str_slice 50 (Book.price b)) (str_slice 50 (Book.rating b)).

(** [df.empty], and [not books] on a list. *)
Definition df_empty (df : list Book.t) : bool :=
  match df with
  | [] => true
  | _ :: _ => false
  end.

(** From [pd.DataFrame(books)] to [df.to_dict('records')]. *)
Definition normalize (books : list Book.t) (num_books : Z) : list Book.t :=
  let df := books in
  if negb (df_empty df) then
    let df := drop_duplicates df in
    let df := slice_to num_books df in
    map str_columns df
  else df.

(** ** The fetch task *)

Definition google_books_url (query : string) (max_results : Z) : string :=
  "https://www.googleapis.com/books/v1/volumes?q=" ++ query
  ++ "&maxResults=" ++ str_of_int max_results ++ "&printType=books".

Section App.

(** What the name [generate_sample_book_data] is bound to when a call
    looks it up in the module globals. *)
Variable sample_binding : option (Z -> list Book.t).

(** The network during the run. *)
Variable network : Request.t -> http_result.

Definition generate_sample_book_data (num_books : Z) : M (list Book.t) :=
  match sample_binding with
  | Some f => ret (f num_books)
  | None => raise (NameError "generate_sample_book_data")
  end.

Definition requests_get (url : string) (timeout : Z) : M Response.t :=
  fun w =>
    let request := Request.mk url timeout in
    let w' := mkWorld (sent w ++ [request])%list (xcom w) (db w) (log w) in
    match network request with
    | ConnectionFailed msg => (Raise (RequestException msg), w')
    | Responded response => (Ok response, w')
    end.

Definition response_json (response : Response.t) : M Document.t :=
  match Response.content response with
  | InvalidJson msg => raise (JSONDecodeError msg)
  | Json data => ret data
  end.

(** The three fallback blocks (lines 71-74, 77-79, 81-83) differ in the
    error they log. *)
Definition fallback (num_books : Z) (error_msg : string) : M (list Book.t) :=
  logging_error error_msg ;;
  books <- generate_sample_book_data num_books ;;
  logging_info ("Using " ++ str_of_int (Z.of_nat (List.length books))
                ++ " sample books as fallback") ;;
  ret books.

Definition fetch_books_from_google_api (num_books : Z) (ti : TaskInstance.t) : M unit :=
  let query := "data+engineering" in
  books <-
    try_except
      (logging_info ("Fetching " ++ str_of_int num_books ++ " books from Google Books API") ;;
       let url := google_books_url query (Z.min num_books 40) in
       response <- requests_get url 30 ;;
       if Response.status_code response =? 200 then
         (data <- response_json response ;;
          let items := get (Document.items data) [] in
          logging_info ("Google Books API returned "
                        ++ str_of_int (Z.of_nat (List.length items)) ++ " items") ;;
          books <- lift (process_items (slice_to num_books items) []) ;;
          logging_info ("Successfully processed "
                        ++ str_of_int (Z.of_nat (List.length books))
                        ++ " books from Google Books API") ;;
          ret books)
       else
         fallback num_books
           ("Google Books API request failed with status code: "
            ++ str_of_int (Response.status_code response)))
      (fun e =>
         if is_RequestException e
         then fallback num_books ("Network error with Google Books API: " ++ exn_str e)
         else fallback num_books ("Unexpected error with Google Books API: " ++ exn_str e)) ;;
  books <-
    (if df_empty books then
       (books <- generate_sample_book_data num_books ;;
        logging_info ("No books found, using "
                      ++ str_of_int (Z.of_nat (List.length books)) ++ " sample books") ;;
        ret books)
     else ret books) ;;
  let final_books := normalize books num_books in
  logging_info ("Final dataset: " ++ str_of_int (Z.of_nat (List.length final_books))
                ++ " books ready for database insertion") ;;
  xcom_push ti "book_data" final_books.

(** ** The insert task *)

(** The database connection: the [i]-th statement [postgres_hook.run]
    issues in one execution of the task fails with the given fault, and
    the count query with the given message. *)
Variable run_fault : nat -> option Fault.t.
Variable get_first_fault : option string.

(** [ON CONFLICT (title) DO UPDATE SET ...] on one row. *)
Definition do_update (parameters : string * string * string * string) (r : Row.t) : Row.t :=
  let '(title, authors, price, rating) := parameters in
  if (Row.title r =? title)%string
  then Row.mk (Row.id r) (Row.title r) authors price rating
  else r.

(** The statement [insert_query] with its four parameters.  The default
    of the [SERIAL] column is drawn from the sequence before the conflict
    is detected, so an update consumes an id as well. *)
Definition insert_query (parameters : string * string * string * string) (d : Db) : Db :=
  let '(title, authors, price, rating) := parameters in
  let new_id := book_id_seq d in
  if existsb (fun r => (Row.title r =? title)%string) (book d)
  then mkDb (map (do_update parameters) (book d)) (new_id + 1)
  else mkDb (book d ++ [Row.mk new_id title authors price rating])%list (new_id + 1).

(** What a failed statement leaves: the rows as they were, and the
    sequence one further if the id had been drawn. *)
Definition failed_statement (f : Fault.t) (d : Db) : Db :=
  if Fault.id_drawn f then mkDb (book d) (book_id_seq d + 1) else d.

(** [postgres_hook.run(insert_query, parameters=...)], the [i]-th of the
    task. *)
Definition postgres_hook_run (i : nat) (parameters : string * string * string * string)
  : M unit :=
  fun w =>
    match run_fault i with
    | Some f =>
        (Raise (DatabaseError (Fault.message f)),
         mkWorld (sent w) (xcom w) (failed_statement f (db w)) (log w))
    | None => (Ok tt, mkWorld (sent w) (xcom w) (insert_query parameters (db w)) (log w))
    end.

(** [postgres_hook.get_first("SELECT COUNT(*) FROM book;")[0]]. *)
Definition postgres_hook_get_first_count : M Z :=
  fun w =>
    match get_first_fault with
    | Some msg => (Raise (DatabaseError msg), w)
    | None => (Ok (Z.of_nat (List.length (book (db w)))), w)
    end.

(** The loop of lines 138-148, from the [i]-th statement on. *)
Fixpoint for_book_in (book_data : list Book.t) (i : nat) (inserted_count : Z) : M Z :=
  match book_data with
  | [] => ret inserted_count
  | book :: rest =>
      inserted_count <-
        try_except
          (postgres_hook_run i
             (Book.title book, Book.author book, Book.price book, Book.rating book) ;;
           ret (inserted_count + 1))
          (fun e =>
             logging_error ("Error inserting book '" ++ Book.title book ++ "': "
                            ++ exn_str e) ;;
             ret inserted_count) ;;
      for_book_in rest (S i) inserted_count
  end.

Definition insert_book_data_into_postgres (ti : TaskInstance.t) : M unit :=
  try_except
    (book_data <- xcom_pull "book_data" "fetch_book_data" ;;
     match book_data with
     | None | Some [] => raise (ValueError "No book data found in XCom")
     | Some book_data =>
         logging_info ("Attempting to insert "
                       ++ str_of_int (Z.of_nat (List.length book_data))
                       ++ " book into database") ;;
         let inserted_count := 0 in
         inserted_count <- for_book_in book_data 0 inserted_count ;;
         logging_info ("Successfully processed " ++ str_of_int inserted_count
                       ++ " books in database") ;;
         total_books <- postgres_hook_get_first_count ;;
         logging_info ("Total books in database: " ++ str_of_int total_books)
     end)
    (fun e =>
       let error_msg := "Error in database operation: " ++ exn_str e in
       logging_error error_msg ;;
       raise (Exception error_msg)).

(** ** The DAG *)

(** [DROP TABLE IF EXISTS book; CREATE TABLE book (...)]: an empty table
    and a fresh sequence. *)
Definition create_table_task : M unit :=
  fun w => (Ok tt, mkWorld (sent w) (xcom w) (mkDb [] 1) (log w)).

Definition fetch_book_data_task : M unit :=
  fetch_books_from_google_api 25 (TaskInstance.mk "fetch_book_data").

Definition insert_book_data_task : M unit :=
  insert_book_data_into_postgres (TaskInstance.mk "insert_book_data").

(** [create_table_task >> fetch_book_data_task >> insert_book_data_task]:
    one DAG run, a task running only when the one before it succeeded.
    The environment is fixed during a run, so a retry of a failed task
    would fail the same way and is left out. *)
Definition dag_run : M unit :=
  create_table_task ;; fetch_book_data_task ;; insert_book_data_task.

End App.

(** The module as it is: [app.py] has no [def] and no [import] that binds
    [generate_sample_book_data]. *)
Definition app_py_sample_binding : option (Z -> list Book.t) := None.

(** ** Vocabulary of the properties *)

(** The length bounds of a record: title and author at most 200
    characters, price and rating at most 50. *)
Definition well_formed (b : Book.t) : bool :=
  ((String.length (Book.title b) <=? 200)%nat
   && (String.length (Book.author b) <=? 200)%nat
   && (String.length (Book.price b) <=? 50)%nat
   && (String.length (Book.rating b) <=? 50)%nat)%bool.

(** Two titles of the list that agree on their first 200 characters are
    the same title. *)
Definition titles_survive_slicing (books : list Book.t) : Prop :=
  forall b1 b2, In b1 books -> In b2 books ->
    str_slice 200 (Book.title b1) = str_slice 200 (Book.title b2) ->
    Book.title b1 = Book.title b2.

(** The request the fetch task sends for [num_books]. *)
Definition request_for (num_books : Z) : Request.t :=
  Request.mk (google_books_url "data+engineering" (Z.min num_books 40)) 30.

(** What the insert task pulls. *)
Definition handoff (w : World) : option (list Book.t) :=
  xcom_lookup ("fetch_book_data", "book_data") (xcom w).

(** The value of [books] the fetch task reaches for an answer of the
    network, without the log: after the [try] statement, and after the
    safety net. *)
Definition generated (sample_binding : option (Z -> list Book.t)) (num_books : Z)
  : result (list Book.t) :=
  match sample_binding with
  | Some f => Ok (f num_books)
  | None => Raise (NameError "generate_sample_book_data")
  end.

Definition parsed (answer : http_result) (num_books : Z) : option (list Book.t) :=
  match answer with
  | ConnectionFailed _ => None
  | Responded response =>
      if Response.status_code response =? 200 then
        match Response.content response with
        | InvalidJson _ => None
        | Json data =>
            match process_items (slice_to num_books (get (Document.items data) [])) [] with
            | Ok books => Some books
            | Raise _ => None
            end
        end
      else None
  end.

Definition books_after_try (sample_binding : option (Z -> list Book.t))
  (answer : http_result) (num_books : Z) : result (list Book.t) :=
  match parsed answer num_books with
  | Some books => Ok books
  | None => generated sample_binding num_books
  end.

Definition books_after_safety_net (sample_binding : option (Z -> list Book.t))
  (answer : http_result) (num_books : Z) : result (list Book.t) :=
  match books_after_try sample_binding answer num_books with
  | Ok [] => generated sample_binding num_books
  | r => r
  end.

(** The fallback is needed: no response, a status other than 200, an
    exception while parsing, or no item. *)
Definition degraded (answer : http_result) (num_books : Z) : bool :=
  match parsed answer num_books with
  | None | Some [] => true
  | Some (_ :: _) => false
  end.

(** The item is an object. *)
Definition is_volume (it : item) : bool :=
  match it with
  | Volume _ _ => true
  | NotAnObject _ => false
  end.

(** The body of the loop raises nothing on the item. *)
Definition parses (it : item) : bool :=
  match parse_item it with
  | Ok _ => true
  | Raise _ => false
  end.


Definition parameters_of (b : Book.t) : string * string * string * string :=
  (Book.title b, Book.author b, Book.price b, Book.rating b).

(** The statements of a batch, one after the other, none failing. *)
Definition upsert_all (books : list Book.t) (d : Db) : Db :=
  fold_left (fun d b => insert_query (parameters_of b) d) books d.

(** The state of the database after the loop of the insert task. *)
Fixpoint persisted (run_fault : nat -> option Fault.t) (book_data : list Book.t)
  (i : nat) (d : Db) : Db :=
  match book_data with
  | [] => d
  | b :: rest =>
      persisted run_fault rest (S i)
        (match run_fault i with
         | Some f => failed_statement f d
         | None => insert_query (parameters_of b) d
         end)
  end.

(** Every row of [d] is still a row of [d'], under its id and title. *)
Definition rows_preserved (d d' : Db) : Prop :=
  forall r, In r (book d) ->
    exists r', In r' (book d') /\ Row.id r' = Row.id r /\ Row.title r' = Row.title r.

(** A row without its id. *)
Definition row_content (r : Row.t) : string * string * string * string :=
  (Row.title r, Row.authors r, Row.price r, Row.rating r).

Definition has_title (title : string) (d : Db) : bool :=
  existsb (fun r => (Row.title r =? title)%string) (book d).

(** The error lines of a log. *)
Definition errors (lg : list (level * string)) : list string :=
  map snd (filter (fun e => match fst e with ERROR => true | INFO => false end) lg).

Definition no_fault : nat -> option Fault.t := fun _ => None.

(** What the loop of the insert task counts and what it logs. *)
Fixpoint inserted (run_fault : nat -> option Fault.t) (book_data : list Book.t)
  (i : nat) : Z :=
  match book_data with
  | [] => 0
  | _ :: rest =>
      (match run_fault i with Some _ => 0 | None => 1 end)
      + inserted run_fault rest (S i)
  end.

Fixpoint loop_log (run_fault : nat -> option Fault.t) (book_data : list Book.t)
  (i : nat) : list (level * string) :=
  match book_data with
  | [] => []
  | b :: rest =>
      match run_fault i with
      | Some f =>
          (ERROR, "Error inserting book '" ++ Book.title b ++ "': " ++ Fault.message f)
          :: loop_log run_fault rest (S i)
      | None => loop_log run_fault rest (S i)
      end
  end.

(** The conflict updates of a batch on one row. *)
Definition overwrite_all (books : list Book.t) (r : Row.t) : Row.t :=
  fold_left (fun r b => do_update (parameters_of b) r) books r.

(** ** Inputs of the examples *)

(** A title of 201 characters: 200 times [A], then [last]. *)
Definition title_of_201 (last : ascii) : string :=
  string_of_list_ascii (repeat "A"%char 200) ++ String last "".

Definition colliding_books : list Book.t :=
  [Book.mk (title_of_201 "1") "First Author" "N/A" "N/A";
   Book.mk (title_of_201 "2") "Second Author" "Free" "N/A"].

Definition sample_task_instance : TaskInstance.t := TaskInstance.mk "fetch_book_data".

Definition empty_world : World := mkWorld [] [] (mkDb [] 1) [].


Definition kubernetes_in_action : item :=
  Volume
    (Some (Object (VolumeInfo.mk (Some "Kubernetes in Action")
                     (Some (JArray [JString "Marko Luksa"]))
                     (Some (Number "4.5")) (Some (Number "12")))))
    (Some (Object (SaleInfo.mk (Some "FOR_SALE")
                     (Some (Object (RetailPrice.mk (Some (Number "39.99")) (Some "USD"))))))).

(** Networks that answer every request the same way. *)
Definition answering (answer : http_result) : Request.t -> http_result :=
  fun _ => answer.

Definition http_500 : http_result := Responded (Response.mk 500 (InvalidJson "")).

(** The response [{}], and a response whose one item has [authors: null]. *)
Definition document_without_items : http_result :=
  Responded (Response.mk 200 (Json (Document.mk None))).

Definition volume_with_null_authors : http_result :=
  Responded
    (Response.mk 200
       (Json (Document.mk
                (Some [Volume
                         (Some (Object (VolumeInfo.mk (Some "Kubernetes in Action")
                                          (Some JNull) None None)))
                         None])))).

Definition one_volume : http_result :=
  Responded (Response.mk 200 (Json (Document.mk (Some [kubernetes_in_action])))).

(** A generator that meets the contract of the specification: [num_books]
    records with pairwise distinct short titles. *)
Definition numbered_samples (num_books : Z) : list Book.t :=
  map (fun i => Book.mk ("Sample Book " ++ str_of_int (Z.of_nat i)) "Sample Author" "N/A" "N/A")
      (seq 1 (Z.to_nat num_books)).

(** A table holding one row. *)
Definition old_row : Row.t :=
  Row.mk 1 "Designing Data-Intensive Applications" "Martin Kleppmann" "N/A" "N/A".

Definition world_with_old_row : World := mkWorld [] [] (mkDb [old_row] 2) [].

Definition two_books : list Book.t :=
  [Book.mk "First" "A" "N/A" "N/A"; Book.mk "Second" "B" "Free" "N/A"].

Definition world_with_handoff (book_data : list Book.t) : World :=
  mkWorld [] [(("fetch_book_data", "book_data"), book_data)] (mkDb [] 1) [].

(** The first statement of the task is rejected by the server, its id
    drawn; the others do not fail. *)
Definition first_fails : nat -> option Fault.t :=
  fun i =>
    match i with
    | O => Some (Fault.mk "canceling statement due to statement timeout" true)
    | S _ => None
    end.

(** ** Vocabulary of the further properties *)

(** The first record of a title in a list, and the last one. *)
Definition first_with_title (title : string) (books : list Book.t) : option Book.t :=
  find (fun b => (Book.title b =? title)%string) books.

Definition last_with_title (title : string) (books : list Book.t) : option Book.t :=
  first_with_title title (rev books).

(** The row carries the author, price and rating of the record. *)
Definition carries (r : Row.t) (b : Book.t) : Prop :=
  Row.authors r = Book.author b /\
  Row.price r = Book.price b /\
  Row.rating r = Book.rating b.

(** The rows a batch of new titles becomes, ids counted from [id]. *)
Fixpoint rows_from (id : Z) (books : list Book.t) : list Row.t :=
  match books with
  | [] => []
  | b :: rest =>
      Row.mk id (Book.title b) (Book.author b) (Book.price b) (Book.rating b)
      :: rows_from (id + 1) rest
  end.

(** The constraints [CREATE TABLE book] declares: [title] is [UNIQUE],
    [id] is a [PRIMARY KEY] drawn from the sequence. *)
Definition table_constraints (d : Db) : Prop :=
  NoDup (map Row.title (book d)) /\
  NoDup (map Row.id (book d)) /\
  Forall (fun r => Row.id r < book_id_seq d) (book d).

(** The records of a batch, each with the fault of its statement if that
    statement fails. *)
Definition outcomes (run_fault : nat -> option Fault.t) (book_data : list Book.t)
  : list (Book.t * option Fault.t) :=
  combine book_data (map run_fault (seq 0 (List.length book_data))).

(** The error line for a record whose statement fails, and none for one
    whose statement does not. *)
Definition error_line (outcome : Book.t * option Fault.t) : list (level * string) :=
  match snd outcome with
  | Some f =>
      [(ERROR, "Error inserting book '" ++ Book.title (fst outcome) ++ "': "
               ++ Fault.message f)]
  | None => []
  end.

Definition succeeded (outcome : Book.t * option Fault.t) : bool :=
  match snd outcome with
  | Some _ => false
  | None => true
  end.

(** Every statement of the task fails before it reaches the server. *)
Definition every_statement_fails : nat -> option Fault.t :=
  fun _ => Some (Fault.mk "connection refused" false).

(** A response whose second item is not an object. *)
Definition one_volume_one_string : http_result :=
  Responded
    (Response.mk 200
       (Json (Document.mk (Some [kubernetes_in_action; NotAnObject (NotDictString "volume")])))).

(** Two records of one title. *)
Definition same_title_twice : list Book.t :=
  [Book.mk "First" "A" "N/A" "N/A"; Book.mk "First" "B" "Free" "4/5 (1 reviews)"].

(** * Properties *)

(** ** Strings and slices *)

Lemma str_slice_length (n : nat) (s : string) :
  (String.length (str_slice n s) <= n)%nat.
Proof.
  unfold str_slice. revert s.
  induction n as [|n IH]; intros [|c s]; simpl; try lia.
  specialize (IH s). lia.
Qed.

Lemma str_slice_short (n : nat) (s : string) :
  (String.length s <= n)%nat -> str_slice n s = s.
Proof.
  unfold str_slice. revert s.
  induction n as [|n IH]; intros [|c s]; simpl; intros H; try reflexivity; try lia.
  f_equal. apply IH. lia.
Qed.

Lemma str_slice_idempotent (n : nat) (s : string) :
  str_slice n (str_slice n s) = str_slice n s.
Proof. apply str_slice_short, str_slice_length. Qed.

Lemma slice_to_length {A : Type} (n : Z) (l : list A) :
  0 <= n -> Z.of_nat (List.length (slice_to n l)) <= n.
Proof.
  intros Hn. unfold slice_to.
  destruct (0 <=? n) eqn:E; [|apply Z.leb_gt in E; lia].
  pose proof (firstn_le_length (Z.to_nat n) l). lia.
Qed.

Lemma slice_to_all {A : Type} (n : Z) (l : list A) :
  Z.of_nat (List.length l) <= n -> slice_to n l = l.
Proof.
  intros H. unfold slice_to.
  destruct (0 <=? n) eqn:E; [|apply Z.leb_gt in E; lia].
  apply firstn_all2. lia.
Qed.

Lemma firstn_In {A : Type} (k : nat) (l : list A) (a : A) :
  In a (firstn k l) -> In a l.
Proof.
  intros H. rewrite <- (firstn_skipn k l). apply in_or_app. now left.
Qed.

Lemma slice_to_incl {A : Type} (n : Z) (l : list A) (a : A) :
  In a (slice_to n l) -> In a l.
Proof.
  unfold slice_to. destruct (0 <=? n); apply firstn_In.
Qed.

Lemma slice_to_nonempty {A : Type} (n : Z) (l : list A) :
  0 < n -> l <> [] -> slice_to n l <> [].
Proof.
  intros Hn Hl. unfold slice_to.
  destruct (0 <=? n) eqn:E; [|apply Z.leb_gt in E; lia].
  destruct l as [|a l]; [congruence|].
  destruct (Z.to_nat n) eqn:En; [lia|]. simpl. discriminate.
Qed.

(** ** Cleaning *)

Lemma seen_spec (t : string) (seen : list string) :
  existsb (String.eqb t) seen = true <-> In t seen.
Proof.
  rewrite existsb_exists. split.
  - intros [x [Hin Heq]]. apply String.eqb_eq in Heq. now subst.
  - intros Hin. exists t. split; [assumption | apply String.eqb_refl].
Qed.

Lemma drop_duplicates_seen_In (seen : list string) (df : list Book.t) (b : Book.t) :
  In b (drop_duplicates_seen seen df) -> In b df /\ ~ In (Book.title b) seen.
Proof.
  revert seen. induction df as [|a df IH]; intros seen; simpl; [tauto|].
  destruct (existsb (String.eqb (Book.title a)) seen) eqn:E.
  - intros H. destruct (IH _ H). tauto.
  - intros [H | H].
    + subst. split; [now left|].
      intros Hin. apply seen_spec in Hin. congruence.
    + destruct (IH _ H) as [H1 H2]. split; [now right|].
      intros Hin. apply H2. now right.
Qed.

Lemma drop_duplicates_seen_NoDup (seen : list string) (df : list Book.t) :
  NoDup (map Book.title (drop_duplicates_seen seen df)).
Proof.
  revert seen. induction df as [|a df IH]; intros seen; simpl; [constructor|].
  destruct (existsb (String.eqb (Book.title a)) seen); [apply IH|].
  simpl. constructor; [|apply IH].
  intros Hin. apply in_map_iff in Hin. destruct Hin as [b [Heq Hb]].
  apply drop_duplicates_seen_In in Hb. destruct Hb as [_ Hb].
  apply Hb. rewrite Heq. now left.
Qed.

Lemma drop_duplicates_seen_fixed (seen : list string) (df : list Book.t) :
  NoDup (map Book.title df) ->
  (forall b, In b df -> ~ In (Book.title b) seen) ->
  drop_duplicates_seen seen df = df.
Proof.
  revert seen. induction df as [|a df IH]; intros seen Hnd Hseen; simpl; [reflexivity|].
  simpl in Hnd. apply NoDup_cons_iff in Hnd. destruct Hnd as [Ha Hnd].
  destruct (existsb (String.eqb (Book.title a)) seen) eqn:E.
  - apply seen_spec in E. exfalso. apply (Hseen a); [now left | assumption].
  - f_equal. apply IH; [assumption|].
    intros b Hb [Heq | Hin].
    + apply Ha. rewrite Heq. now apply in_map.
    + apply (Hseen b); [now right | assumption].
Qed.

Lemma drop_duplicates_fixed (df : list Book.t) :
  NoDup (map Book.title df) -> drop_duplicates df = df.
Proof.
  intros H. apply drop_duplicates_seen_fixed; [assumption | intros b _ []].
Qed.

Lemma drop_duplicates_nonempty (df : list Book.t) :
  df <> [] -> drop_duplicates df <> [].
Proof. destruct df as [|a df]; [congruence | discriminate]. Qed.

Lemma drop_duplicates_incl (df : list Book.t) (b : Book.t) :
  In b (drop_duplicates df) -> In b df.
Proof. intros H. now apply drop_duplicates_seen_In in H. Qed.

Lemma NoDup_firstn {A : Type} (k : nat) (l : list A) :
  NoDup l -> NoDup (firstn k l).
Proof.
  intros H. rewrite <- (firstn_skipn k l) in H.
  exact (NoDup_app_remove_r _ _ H).
Qed.

Lemma slice_to_NoDup_titles (n : Z) (df : list Book.t) :
  NoDup (map Book.title df) -> NoDup (map Book.title (slice_to n df)).
Proof.
  intros H. unfold slice_to.
  destruct (0 <=? n); rewrite <- firstn_map; now apply NoDup_firstn.
Qed.

Lemma str_columns_well_formed (b : Book.t) : well_formed (str_columns b) = true.
Proof.
  unfold well_formed, str_columns. cbn [Book.title Book.author Book.price Book.rating].
  repeat (apply andb_true_intro; split); apply Nat.leb_le, str_slice_length.
Qed.

Lemma str_columns_fixed (b : Book.t) : well_formed b = true -> str_columns b = b.
Proof.
  destruct b as [t a p r]. unfold well_formed, str_columns.
  cbn [Book.title Book.author Book.price Book.rating]. intros H.
  repeat (apply andb_prop in H; destruct H as [H ?]).
  apply Nat.leb_le in H, H0, H1, H2.
  now rewrite (str_slice_short 200 t), (str_slice_short 200 a),
    (str_slice_short 50 p), (str_slice_short 50 r).
Qed.

Lemma map_str_columns_fixed (df : list Book.t) :
  Forall (fun b => well_formed b = true) df -> map str_columns df = df.
Proof.
  induction 1 as [|b df Hb _ IH]; simpl; [reflexivity|].
  now rewrite IH, str_columns_fixed.
Qed.

Lemma normalize_equation (books : list Book.t) (num_books : Z) :
  normalize books num_books = map str_columns (slice_to num_books (drop_duplicates books)).
Proof.
  destruct books as [|b books]; [|reflexivity].
  unfold normalize, slice_to. simpl.
  destruct (0 <=? num_books); rewrite ?firstn_nil; reflexivity.
Qed.

Lemma normalize_well_formed (books : list Book.t) (num_books : Z) :
  Forall (fun b => well_formed b = true) (normalize books num_books).
Proof.
  rewrite normalize_equation. apply Forall_forall. intros b Hb.
  apply in_map_iff in Hb. destruct Hb as [b' [<- _]]. apply str_columns_well_formed.
Qed.

Lemma normalize_length (books : list Book.t) (num_books : Z) :
  0 <= num_books -> Z.of_nat (List.length (normalize books num_books)) <= num_books.
Proof.
  intros H. rewrite normalize_equation, length_map. now apply slice_to_length.
Qed.

Lemma normalize_nonempty (books : list Book.t) (num_books : Z) :
  0 < num_books -> books <> [] -> normalize books num_books <> [].
Proof.
  intros Hn Hb. rewrite normalize_equation.
  pose proof (slice_to_nonempty num_books _ Hn (drop_duplicates_nonempty _ Hb)) as H.
  destruct (slice_to num_books (drop_duplicates books)); [congruence | discriminate].
Qed.

Lemma normalize_fixed (books : list Book.t) (num_books : Z) :
  NoDup (map Book.title books) ->
  Z.of_nat (List.length books) <= num_books ->
  Forall (fun b => well_formed b = true) books ->
  normalize books num_books = books.
Proof.
  intros Hnd Hlen Hwf.
  rewrite normalize_equation, drop_duplicates_fixed, slice_to_all by assumption.
  now apply map_str_columns_fixed.
Qed.

(** Where slicing the titles cannot make two of them collide, the titles
    of a cleaned batch are pairwise distinct. *)
Lemma normalize_titles_unique (books : list Book.t) (num_books : Z) :
  titles_survive_slicing books ->
  NoDup (map Book.title (normalize books num_books)).
Proof.
  intros Hs. rewrite normalize_equation, map_map.
  change (fun x => Book.title (str_columns x))
    with (fun x => str_slice 200 (Book.title x)).
  rewrite <- (map_map Book.title (str_slice 200)).
  apply NoDup_map_NoDup_ForallPairs.
  - intros t1 t2 H1 H2 Heq.
    apply in_map_iff in H1. destruct H1 as [b1 [<- H1]].
    apply in_map_iff in H2. destruct H2 as [b2 [<- H2]].
    apply slice_to_incl, drop_duplicates_incl in H1.
    apply slice_to_incl, drop_duplicates_incl in H2.
    now apply Hs.
  - apply slice_to_NoDup_titles, drop_duplicates_seen_NoDup.
Qed.

(** On such a batch, cleaning a second time changes nothing. *)
Lemma normalize_fixed_point (books : list Book.t) (num_books : Z) :
  0 <= num_books ->
  titles_survive_slicing books ->
  normalize (normalize books num_books) num_books = normalize books num_books.
Proof.
  intros Hn Hs. apply normalize_fixed.
  - now apply normalize_titles_unique.
  - now apply normalize_length.
  - apply normalize_well_formed.
Qed.

Lemma short_titles_survive_slicing (books : list Book.t) :
  Forall (fun b => (String.length (Book.title b) <= 200)%nat) books ->
  titles_survive_slicing books.
Proof.
  intros H b1 b2 H1 H2. rewrite Forall_forall in H.
  rewrite !str_slice_short by auto. auto.
Qed.

(** ** The fetch task *)

Ltac run_task :=
  cbn [sent xcom db log fst snd is_RequestException df_empty];
  rewrite <- ?app_assoc;
  eexists; reflexivity.

(** One execution of the fetch task: the request goes out, and either the
    cleaned books are pushed or the exception leaves XCom as it was. *)
Lemma fetch_run (sample_binding : option (Z -> list Book.t))
  (network : Request.t -> http_result) (num_books : Z) (ti : TaskInstance.t) (w : World) :
  exists entries,
    fetch_books_from_google_api sample_binding network num_books ti w =
    match books_after_safety_net sample_binding (network (request_for num_books)) num_books with
    | Ok books =>
        (Ok tt,
         mkWorld (sent w ++ [request_for num_books])%list
           (xcom_set (TaskInstance.task_id ti, "book_data") (normalize books num_books) (xcom w))
           (db w) (log w ++ entries)%list)
    | Raise e =>
        (Raise e,
         mkWorld (sent w ++ [request_for num_books])%list (xcom w) (db w)
           (log w ++ entries)%list)
    end.
Proof.
  unfold fetch_books_from_google_api, books_after_safety_net, books_after_try, parsed,
    generated, fallback, generate_sample_book_data, requests_get, response_json,
    logging_info, logging_error, xcom_push, try_except, bind, ret, raise, lift.
  fold (request_for num_books).
  cbn [sent xcom db log].
  destruct (network (request_for num_books)) as [msg | [status content]].
  - destruct sample_binding as [f|]; [destruct (f num_books)|]; run_task.
  - cbn [Response.status_code Response.content].
    destruct (status =? 200).
    + destruct content as [msg | data].
      * destruct sample_binding as [f|]; [destruct (f num_books)|]; run_task.
      * cbn [sent xcom db log].
        destruct (process_items (slice_to num_books (get (Document.items data) [])) [])
          as [books | e].
        -- destruct books;
             [destruct sample_binding as [f|]; [destruct (f num_books)|]|]; run_task.
        -- destruct (is_RequestException e);
             (destruct sample_binding as [f|]; [destruct (f num_books)|]); run_task.
    + destruct sample_binding as [f|]; [destruct (f num_books)|]; run_task.
Qed.

Lemma xcom_lookup_set (k : string * string) (v : list Book.t) (s : xcom_store) :
  xcom_lookup k (xcom_set k v s) = Some v.
Proof.
  unfold xcom_set. simpl. unfold xcom_key_eqb. now rewrite !String.eqb_refl.
Qed.

(** With the fallback unbound, a degraded answer ends in [NameError]. *)
Lemma degraded_unbound (answer : http_result) (num_books : Z) :
  degraded answer num_books = true ->
  books_after_safety_net None answer num_books = Raise (NameError "generate_sample_book_data").
Proof.
  unfold degraded, books_after_safety_net, books_after_try, generated.
  destruct (parsed answer num_books) as [[|b books]|]; intros H;
    [reflexivity | discriminate | reflexivity].
Qed.

(** With the fallback bound, the books are the parsed ones, or the samples
    when there are none. *)
Lemma books_bound (f : Z -> list Book.t) (answer : http_result) (num_books : Z) :
  books_after_safety_net (Some f) answer num_books =
  Ok (if degraded answer num_books
      then f num_books
      else match parsed answer num_books with Some books => books | None => [] end).
Proof.
  unfold degraded, books_after_safety_net, books_after_try, generated.
  destruct (parsed answer num_books) as [[|b books]|]; [|reflexivity|].
  - reflexivity.
  - now destruct (f num_books).
Qed.

Lemma forallb_firstn {A : Type} (p : A -> bool) (k : nat) (l : list A) :
  forallb p l = true -> forallb p (firstn k l) = true.
Proof.
  intros H. apply forallb_forall. intros a Ha.
  rewrite forallb_forall in H. apply H. exact (firstn_In _ _ _ Ha).
Qed.

(** The loop ends well on items the body of the loop raises nothing on,
    with one more record an item, each the record of its item. *)
Lemma process_items_parsed (items : list item) (books : list Book.t) :
  forallb parses items = true ->
  exists new_books,
    process_items items books = Ok (books ++ new_books)%list /\
    map parse_item items = map Ok new_books.
Proof.
  revert books. induction items as [|it items IH]; intros books H.
  - exists []. now rewrite app_nil_r.
  - simpl in H. apply andb_prop in H. destruct H as [Hit H].
    unfold parses in Hit.
    destruct (parse_item it) as [b|e] eqn:Hb; [|discriminate].
    destruct (IH (books ++ [b])%list H) as [new_books [Hrun Hmap]].
    exists (b :: new_books).
    cbn [process_items]. rewrite Hb, Hrun, <- app_assoc.
    split; [reflexivity|]. cbn [map]. now rewrite Hb, Hmap.
Qed.

(** It raises the exception of the first item the body raises on. *)
Lemma process_items_first_exception (pre post : list item) (it : item) (e : exn)
  (books : list Book.t) :
  forallb parses pre = true ->
  parse_item it = Raise e ->
  process_items (pre ++ it :: post) books = Raise e.
Proof.
  revert books. induction pre as [|p pre IH]; intros books Hpre Hit.
  - cbn [app process_items]. now rewrite Hit.
  - simpl in Hpre. apply andb_prop in Hpre. destruct Hpre as [Hp Hpre].
    unfold parses in Hp. cbn [app process_items].
    destruct (parse_item p) as [b|e'] eqn:Hb; [|discriminate].
    now apply IH.
Qed.

(** An item that is not an object makes it raise. *)
Lemma process_items_raises (items : list item) (books : list Book.t) :
  forallb is_volume items = false ->
  exists e, process_items items books = Raise e.
Proof.
  revert books. induction items as [|it items IH]; intros books H; [discriminate|].
  cbn [process_items].
  destruct (parse_item it) as [b|e] eqn:Hb; [|now exists e].
  destruct it as [volumeInfo saleInfo | v]; [|discriminate].
  simpl in H. now apply IH.
Qed.

(** With the fallback unbound, a degraded answer makes the task raise
    [NameError]; nothing is pushed. *)
Lemma fetch_degraded_unbound (network : Request.t -> http_result) (num_books : Z)
  (ti : TaskInstance.t) (w : World) :
  degraded (network (request_for num_books)) num_books = true ->
  exists entries,
    fetch_books_from_google_api None network num_books ti w =
    (Raise (NameError "generate_sample_book_data"),
     mkWorld (sent w ++ [request_for num_books])%list (xcom w) (db w)
       (log w ++ entries)%list).
Proof.
  intros H. destruct (fetch_run None network num_books ti w) as [entries Hrun].
  rewrite (degraded_unbound _ _ H) in Hrun. now exists entries.
Qed.

(** With the fallback bound to a generator that yields [num_books] records
    of distinct titles within the length bounds, a degraded answer makes
    the task push exactly these records. *)
Lemma fetch_degraded_bound (f : Z -> list Book.t) (network : Request.t -> http_result)
  (num_books : Z) (ti : TaskInstance.t) (w : World) :
  degraded (network (request_for num_books)) num_books = true ->
  Z.of_nat (List.length (f num_books)) = num_books ->
  NoDup (map Book.title (f num_books)) ->
  Forall (fun b => well_formed b = true) (f num_books) ->
  exists entries,
    fetch_books_from_google_api (Some f) network num_books ti w =
    (Ok tt,
     mkWorld (sent w ++ [request_for num_books])%list
       (xcom_set (TaskInstance.task_id ti, "book_data") (f num_books) (xcom w))
       (db w) (log w ++ entries)%list).
Proof.
  intros Hd Hlen Hnd Hwf.
  destruct (fetch_run (Some f) network num_books ti w) as [entries Hrun].
  rewrite books_bound, Hd in Hrun.
  rewrite normalize_fixed in Hrun by (assumption || lia).
  now exists entries.
Qed.

(** ** The fallback of the fetch task *)

(** C1 (the code departs from the claim).  The claim: whatever the outcome
    of the API call, the fetch task raises nothing and returns [num_books]
    records of the fallback generator.  In [app.py] the name
    [generate_sample_book_data] is bound nowhere, so each of the four
    degraded outcomes (no connection, status 500, a body that is not JSON,
    an empty item list) ends, for 25 books, in [NameError] leaving the
    task, with nothing pushed to XCom. *)
Theorem fetch_fallback_raises_NameError :
  forall answer,
    In answer [ConnectionFailed "timed out";
               http_500;
               Responded (Response.mk 200 (InvalidJson "Expecting value"));
               Responded (Response.mk 200 (Json (Document.mk (Some []))))] ->
    let run := fetch_books_from_google_api app_py_sample_binding (answering answer) 25
                 sample_task_instance empty_world in
    fst run = Raise (NameError "generate_sample_book_data") /\
    xcom (snd run) = [].
Proof.
  intros answer H. simpl in H.
  destruct H as [<- | [<- | [<- | [<- | []]]]]; vm_compute; split; reflexivity.
Qed.

Lemma fetch_fallback_raises_NameError_witness :
  let run := fetch_books_from_google_api app_py_sample_binding (answering http_500) 25
               sample_task_instance empty_world in
  fst run = Raise (NameError "generate_sample_book_data") /\ xcom (snd run) = [].
Proof.
  apply (fetch_fallback_raises_NameError http_500). simpl. right. left. reflexivity.
Defined.

(** ** The insert task *)

Lemma for_book_in_run (run_fault : nat -> option Fault.t) (book_data : list Book.t)
  (i : nat) (inserted_count : Z) (w : World) :
  for_book_in run_fault book_data i inserted_count w =
  (Ok (inserted_count + inserted run_fault book_data i),
   mkWorld (sent w) (xcom w) (persisted run_fault book_data i (db w))
     (log w ++ loop_log run_fault book_data i)%list).
Proof.
  revert i inserted_count w.
  induction book_data as [|b rest IH]; intros i inserted_count w.
  - simpl. unfold ret. rewrite Z.add_0_r, app_nil_r. now destruct w.
  - simpl. unfold bind at 1. unfold try_except, bind, postgres_hook_run, ret, logging_error.
    destruct (run_fault i) as [msg|]; rewrite IH; cbn [sent xcom db log].
    + rewrite <- app_assoc. reflexivity.
    + f_equal. f_equal. lia.
Qed.

Lemma insert_run_nothing run_fault get_first_fault ti w :
  handoff w = None \/ handoff w = Some [] ->
  insert_book_data_into_postgres run_fault get_first_fault ti w =
  (Raise (Exception "Error in database operation: No book data found in XCom"),
   mkWorld (sent w) (xcom w) (db w)
     (log w ++ [(ERROR, "Error in database operation: No book data found in XCom")])%list).
Proof.
  unfold handoff, insert_book_data_into_postgres, try_except, bind, xcom_pull, raise,
    logging_error.
  intros [H | H]; rewrite H; reflexivity.
Qed.

Lemma insert_run_books run_fault ti w b rest :
  handoff w = Some (b :: rest) ->
  insert_book_data_into_postgres run_fault None ti w =
  (Ok tt,
   mkWorld (sent w) (xcom w) (persisted run_fault (b :: rest) 0 (db w))
     (log w
      ++ [(INFO, ("Attempting to insert "
                  ++ str_of_int (Z.of_nat (List.length (b :: rest)))
                  ++ " book into database")%string)]
      ++ loop_log run_fault (b :: rest) 0
      ++ [(INFO, ("Successfully processed "
                  ++ str_of_int (inserted run_fault (b :: rest) 0)
                  ++ " books in database")%string);
          (INFO, ("Total books in database: "
                  ++ str_of_int (Z.of_nat (List.length
                       (book (persisted run_fault (b :: rest) 0 (db w))))))%string)])%list).
Proof.
  intros H.
  unfold handoff in H.
  unfold insert_book_data_into_postgres, try_except, xcom_pull.
  unfold bind at 1. rewrite H.
  unfold bind at 1. unfold logging_info at 1.
  unfold bind at 1. rewrite for_book_in_run.
  unfold bind, logging_info, postgres_hook_get_first_count.
  cbn [sent xcom db log]. rewrite <- !app_assoc. reflexivity.
Qed.

Lemma insert_run_count_fails run_fault ti w b rest msg :
  handoff w = Some (b :: rest) ->
  insert_book_data_into_postgres run_fault (Some msg) ti w =
  (Raise (Exception ("Error in database operation: " ++ msg)),
   mkWorld (sent w) (xcom w) (persisted run_fault (b :: rest) 0 (db w))
     (log w
      ++ [(INFO, ("Attempting to insert "
                  ++ str_of_int (Z.of_nat (List.length (b :: rest)))
                  ++ " book into database")%string)]
      ++ loop_log run_fault (b :: rest) 0
      ++ [(INFO, ("Successfully processed "
                  ++ str_of_int (inserted run_fault (b :: rest) 0)
                  ++ " books in database")%string);
          (ERROR, ("Error in database operation: " ++ msg)%string)])%list).
Proof.
  intros H.
  unfold handoff in H.
  unfold insert_book_data_into_postgres, try_except, xcom_pull.
  unfold bind at 1. rewrite H.
  unfold bind at 1. unfold logging_info at 1.
  unfold bind at 1. rewrite for_book_in_run.
  unfold bind, logging_info, logging_error, raise, postgres_hook_get_first_count.
  cbn [sent xcom db log exn_str]. rewrite <- !app_assoc. reflexivity.
Qed.

Lemma insert_run_db run_fault get_first_fault ti w :
  db (snd (insert_book_data_into_postgres run_fault get_first_fault ti w)) =
  match handoff w with
  | Some (b :: rest) => persisted run_fault (b :: rest) 0 (db w)
  | _ => db w
  end.
Proof.
  destruct (handoff w) as [[|b rest]|] eqn:H.
  - rewrite insert_run_nothing by tauto. reflexivity.
  - unfold handoff in H.
    unfold insert_book_data_into_postgres, try_except, xcom_pull.
    unfold bind at 1. rewrite H.
    unfold bind at 1. unfold logging_info at 1.
    unfold bind at 1. rewrite for_book_in_run.
    unfold bind, logging_info, postgres_hook_get_first_count, logging_error, raise.
    destruct get_first_fault; reflexivity.
  - rewrite insert_run_nothing by tauto. reflexivity.
Qed.

(** ** The table *)

#[local] Arguments insert_query : simpl never.
#[local] Arguments do_update : simpl never.

Lemma do_update_id p r : Row.id (do_update p r) = Row.id r.
Proof.
  destruct p as [[[t a] pr] ra]. unfold do_update.
  now destruct (Row.title r =? t)%string.
Qed.

Lemma do_update_title p r : Row.title (do_update p r) = Row.title r.
Proof.
  destruct p as [[[t a] pr] ra]. unfold do_update.
  now destruct (Row.title r =? t)%string.
Qed.

Lemma insert_query_book (b : Book.t) (d : Db) :
  book (insert_query (parameters_of b) d) =
  if has_title (Book.title b) d
  then map (do_update (parameters_of b)) (book d)
  else (book d ++ [Row.mk (book_id_seq d) (Book.title b) (Book.author b)
                          (Book.price b) (Book.rating b)])%list.
Proof.
  unfold insert_query, parameters_of, has_title.
  now destruct (existsb _ (book d)).
Qed.

Lemma has_title_spec (t : string) (d : Db) :
  has_title t d = true <-> In t (map Row.title (book d)).
Proof.
  unfold has_title. rewrite existsb_exists, in_map_iff. split.
  - intros [r [Hr Ht]]. apply String.eqb_eq in Ht. now exists r.
  - intros [r [Ht Hr]]. exists r. split; [assumption|]. now apply String.eqb_eq.
Qed.

Lemma rows_preserved_refl d : rows_preserved d d.
Proof. intros r Hr. now exists r. Qed.

Lemma rows_preserved_trans d1 d2 d3 :
  rows_preserved d1 d2 -> rows_preserved d2 d3 -> rows_preserved d1 d3.
Proof.
  intros H12 H23 r Hr.
  destruct (H12 r Hr) as [r2 [Hr2 [Hid2 Ht2]]].
  destruct (H23 r2 Hr2) as [r3 [Hr3 [Hid3 Ht3]]].
  exists r3. repeat split; congruence.
Qed.

Lemma insert_query_rows_preserved (b : Book.t) (d : Db) :
  rows_preserved d (insert_query (parameters_of b) d).
Proof.
  intros r Hr. rewrite insert_query_book.
  destruct (has_title (Book.title b) d).
  - exists (do_update (parameters_of b) r).
    split; [now apply in_map|]. split; [apply do_update_id | apply do_update_title].
  - exists r. split; [apply in_or_app; now left | now split].
Qed.

Lemma failed_statement_book (f : Fault.t) (d : Db) :
  book (failed_statement f d) = book d.
Proof. unfold failed_statement. now destruct (Fault.id_drawn f). Qed.

Lemma persisted_rows_preserved run_fault book_data i d :
  rows_preserved d (persisted run_fault book_data i d).
Proof.
  revert i d. induction book_data as [|b rest IH]; intros i d; simpl.
  - apply rows_preserved_refl.
  - destruct (run_fault i) as [f|].
    + eapply rows_preserved_trans; [|apply IH].
      intros r Hr. exists r. now rewrite failed_statement_book.
    + eapply rows_preserved_trans; [apply insert_query_rows_preserved | apply IH].
Qed.

Lemma persisted_app run_fault l1 l2 i d :
  persisted run_fault (l1 ++ l2) i d =
  persisted run_fault l2 (i + List.length l1)%nat (persisted run_fault l1 i d).
Proof.
  revert i d. induction l1 as [|b l1 IH]; intros i d; simpl.
  - now rewrite Nat.add_0_r.
  - rewrite IH. now rewrite Nat.add_succ_r.
Qed.

Lemma inserted_app run_fault l1 l2 i :
  inserted run_fault (l1 ++ l2) i =
  inserted run_fault l1 i + inserted run_fault l2 (i + List.length l1)%nat.
Proof.
  revert i. induction l1 as [|b l1 IH]; intros i; simpl.
  - now rewrite Nat.add_0_r.
  - rewrite IH, Nat.add_succ_r. simpl. lia.
Qed.

Lemma loop_log_app run_fault l1 l2 i :
  loop_log run_fault (l1 ++ l2) i =
  (loop_log run_fault l1 i ++ loop_log run_fault l2 (i + List.length l1)%nat)%list.
Proof.
  revert i. induction l1 as [|b l1 IH]; intros i; simpl.
  - now rewrite Nat.add_0_r.
  - rewrite IH, Nat.add_succ_r. simpl. now destruct (run_fault i).
Qed.

Lemma loop_without_fault run_fault l i d :
  (forall j, (i <= j < i + List.length l)%nat -> run_fault j = None) ->
  persisted run_fault l i d = upsert_all l d /\
  inserted run_fault l i = Z.of_nat (List.length l) /\
  loop_log run_fault l i = [].
Proof.
  revert i d. induction l as [|b l IH]; intros i d H; simpl.
  - repeat split.
  - rewrite (H i) by (simpl; lia).
    change (upsert_all (b :: l) d) with (upsert_all l (insert_query (parameters_of b) d)).
    destruct (IH (S i) (insert_query (parameters_of b) d)) as [H1 [H2 H3]].
    { intros j Hj. apply H. simpl. lia. }
    rewrite H1, H2, H3. repeat split. lia.
Qed.

Lemma upsert_all_app l1 l2 d :
  upsert_all (l1 ++ l2) d = upsert_all l2 (upsert_all l1 d).
Proof. unfold upsert_all. apply fold_left_app. Qed.

Lemma loop_with_one_fault run_fault pre b post f d :
  run_fault (List.length pre) = Some f ->
  (forall j, j <> List.length pre -> run_fault j = None) ->
  persisted run_fault (pre ++ b :: post) 0 d
  = upsert_all post (failed_statement f (upsert_all pre d)) /\
  inserted run_fault (pre ++ b :: post) 0 = Z.of_nat (List.length (pre ++ post)) /\
  loop_log run_fault (pre ++ b :: post) 0 =
    [(ERROR, "Error inserting book '" ++ Book.title b ++ "': " ++ Fault.message f)].
Proof.
  intros Hf Hnf.
  destruct (loop_without_fault run_fault pre 0 d) as [P1 [P2 P3]].
  { intros j Hj. apply Hnf. lia. }
  destruct (loop_without_fault run_fault post (S (List.length pre))
              (failed_statement f (upsert_all pre d))) as [Q1 [Q2 Q3]].
  { intros j Hj. apply Hnf. lia. }
  rewrite persisted_app, inserted_app, loop_log_app. simpl.
  rewrite Hf, P1, P2, P3, Q1, Q2, Q3, length_app.
  repeat split. lia.
Qed.

Lemma do_update_same_title (b : Book.t) (r : Row.t) :
  Row.title r = Book.title b ->
  do_update (parameters_of b) r =
  Row.mk (Row.id r) (Row.title r) (Book.author b) (Book.price b) (Book.rating b).
Proof.
  intros H. unfold do_update, parameters_of. now rewrite H, String.eqb_refl.
Qed.

Lemma do_update_other_title (b : Book.t) (r : Row.t) :
  Row.title r <> Book.title b -> do_update (parameters_of b) r = r.
Proof.
  intros H. unfold do_update, parameters_of.
  apply String.eqb_neq in H. now rewrite H.
Qed.

Lemma overwrite_all_id_title (books : list Book.t) (r : Row.t) :
  Row.id (overwrite_all books r) = Row.id r /\
  Row.title (overwrite_all books r) = Row.title r.
Proof.
  revert r. induction books as [|b books IH]; intros r; [now split|].
  change (overwrite_all (b :: books) r)
    with (overwrite_all books (do_update (parameters_of b) r)).
  destruct (IH (do_update (parameters_of b) r)) as [H1 H2].
  now rewrite H1, H2, do_update_id, do_update_title.
Qed.

(** A row that already carries the fields of [b] is what the update by
    [b] makes of any row of the same id and title. *)
Lemma do_update_settles (b : Book.t) (r r1 : Row.t) :
  Row.title r = Book.title b ->
  Row.authors r = Book.author b ->
  Row.price r = Book.price b ->
  Row.rating r = Book.rating b ->
  Row.id r1 = Row.id r ->
  Row.title r1 = Row.title r ->
  do_update (parameters_of b) r1 = r.
Proof.
  intros Ht Ha Hp Hr Hid Ht1.
  rewrite do_update_same_title by congruence.
  destruct r. cbn in *. congruence.
Qed.

Lemma insert_query_titles (b : Book.t) (d : Db) :
  map Row.title (book (insert_query (parameters_of b) d)) =
  if has_title (Book.title b) d
  then map Row.title (book d)
  else (map Row.title (book d) ++ [Book.title b])%list.
Proof.
  rewrite insert_query_book. destruct (has_title (Book.title b) d).
  - rewrite map_map. apply map_ext. intros r. apply do_update_title.
  - now rewrite map_app.
Qed.

Lemma insert_query_has_title (b : Book.t) (d : Db) :
  has_title (Book.title b) (insert_query (parameters_of b) d) = true.
Proof.
  apply has_title_spec. rewrite insert_query_titles.
  destruct (has_title (Book.title b) d) eqn:E.
  - now apply has_title_spec.
  - apply in_or_app. right. now left.
Qed.

Lemma insert_query_keeps_title (t : string) (b : Book.t) (d : Db) :
  has_title t d = true -> has_title t (insert_query (parameters_of b) d) = true.
Proof.
  rewrite !has_title_spec, insert_query_titles. intros H.
  destruct (has_title (Book.title b) d); [assumption|].
  apply in_or_app. now left.
Qed.

Lemma upsert_all_keeps_title (t : string) (books : list Book.t) (d : Db) :
  has_title t d = true -> has_title t (upsert_all books d) = true.
Proof.
  revert d. induction books as [|b books IH]; intros d H; [assumption|].
  apply (IH (insert_query (parameters_of b) d)). now apply insert_query_keeps_title.
Qed.

Lemma upsert_all_has_titles (books : list Book.t) (d : Db) (b : Book.t) :
  In b books -> has_title (Book.title b) (upsert_all books d) = true.
Proof.
  revert d. induction books as [|a books IH]; intros d Hb; [destruct Hb|].
  destruct Hb as [Hb | Hb].
  - subst a. apply (upsert_all_keeps_title _ books (insert_query (parameters_of b) d)).
    apply insert_query_has_title.
  - apply (IH (insert_query (parameters_of a) d) Hb).
Qed.

(** On a table that holds every title of the batch, the batch only
    overwrites, row by row. *)
Lemma upsert_all_overwrites (books : list Book.t) (d : Db) :
  (forall b, In b books -> has_title (Book.title b) d = true) ->
  book (upsert_all books d) = map (overwrite_all books) (book d).
Proof.
  revert d. induction books as [|b books IH]; intros d H.
  - simpl. now rewrite map_id.
  - change (upsert_all (b :: books) d)
      with (upsert_all books (insert_query (parameters_of b) d)).
    rewrite IH.
    + rewrite insert_query_book, (H b) by now left.
      rewrite map_map. reflexivity.
    + intros b' Hb'. apply insert_query_keeps_title, H. now right.
Qed.

(** After the batch, updating by the batch again changes no row. *)
Lemma upsert_all_settled (books : list Book.t) (d : Db) (r : Row.t) :
  In r (book (upsert_all books d)) -> overwrite_all books r = r.
Proof.
  revert r. induction books as [|b books IH] using rev_ind; intros r Hr; [reflexivity|].
  rewrite upsert_all_app in Hr.
  change (upsert_all [b] (upsert_all books d))
    with (insert_query (parameters_of b) (upsert_all books d)) in Hr.
  unfold overwrite_all. rewrite fold_left_app. fold (overwrite_all books r).
  cbn [fold_left].
  destruct (overwrite_all_id_title books r) as [Hid Ht].
  rewrite insert_query_book in Hr.
  destruct (has_title (Book.title b) (upsert_all books d)) eqn:E.
  - apply in_map_iff in Hr. destruct Hr as [r0 [Hr0 Hin]].
    destruct (String.eqb_spec (Row.title r0) (Book.title b)) as [Heq | Hne].
    + rewrite do_update_same_title in Hr0 by assumption. subst r.
      now apply do_update_settles.
    + rewrite do_update_other_title in Hr0 by assumption. subst r0.
      rewrite (IH r Hin). now apply do_update_other_title.
  - apply in_app_or in Hr. destruct Hr as [Hin | [Hnew | []]].
    + rewrite (IH r Hin). apply do_update_other_title.
      intros Heq. assert (has_title (Book.title b) (upsert_all books d) = true); [|congruence].
      apply has_title_spec. rewrite <- Heq. now apply in_map.
    + subst r. now apply do_update_settles.
Qed.

(** Upserting a batch a second time leaves the rows as the first time left
    them. *)
Lemma upsert_all_twice (books : list Book.t) (d : Db) :
  book (upsert_all books (upsert_all books d)) = book (upsert_all books d).
Proof.
  rewrite upsert_all_overwrites by (intros b Hb; now apply upsert_all_has_titles).
  rewrite <- (map_id (book (upsert_all books d))) at 2.
  apply map_ext_in. intros r Hr. exact (upsert_all_settled books d r Hr).
Qed.

(** ** Valid responses, cleaning and the price rule *)

(** C9 (the code departs from the claim).  The claim: for every response
    with status 200 and a JSON body and every count, the fetch task
    returns at most [num_books] records within the length bounds, and its
    one request asks for at most 40 results.  The request is as claimed,
    but a response that yields no record makes the task return nothing:
    on a document without [items], on an empty item list, and on a single
    item whose [authors] is [null], the task reaches the fallback, which
    is bound nowhere in [app.py], and for 25 books ends in [NameError]
    with nothing pushed.  The defect is the one of C1. *)
Theorem fetch_valid_response_raises_NameError :
  forall answer,
    In answer [document_without_items;
               Responded (Response.mk 200 (Json (Document.mk (Some []))));
               volume_with_null_authors] ->
    let run := fetch_books_from_google_api app_py_sample_binding (answering answer) 25
                 sample_task_instance empty_world in
    fst run = Raise (NameError "generate_sample_book_data") /\
    xcom (snd run) = [] /\
    sent (snd run) = [Request.mk (google_books_url "data+engineering" 25) 30].
Proof.
  intros answer H. simpl in H.
  destruct H as [<- | [<- | [<- | []]]]; vm_compute; repeat split.
Qed.

Lemma fetch_valid_response_raises_NameError_witness :
  let run := fetch_books_from_google_api app_py_sample_binding
               (answering document_without_items) 25 sample_task_instance empty_world in
  fst run = Raise (NameError "generate_sample_book_data") /\
  xcom (snd run) = [] /\
  sent (snd run) = [Request.mk (google_books_url "data+engineering" 25) 30].
Proof.
  apply (fetch_valid_response_raises_NameError document_without_items).
  simpl. left. reflexivity.
Defined.

(** C5 (the code departs from the claim).  The claim: no two records of a
    cleaned batch share a title.  Duplicates are dropped on the full
    titles and the titles are cut to 200 characters afterwards, so two
    titles of 201 characters that differ in the last one leave the
    cleaning as the same title twice. *)
Theorem normalize_repeats_a_title :
  ~ NoDup (map Book.title (normalize colliding_books 10)).
Proof.
  intros H. vm_compute in H. inversion H as [|t l Hnotin _].
  apply Hnotin. left. reflexivity.
Qed.

(** C6 (the code departs from the claim).  The claim: cleaning a cleaned
    batch changes nothing.  On the two colliding titles the first cleaning
    keeps both records, with equal titles, and a second cleaning drops
    one of them. *)
Theorem normalize_twice_differs :
  List.length (normalize colliding_books 10) = 2%nat /\
  List.length (normalize (normalize colliding_books 10) 10) = 1%nat /\
  normalize (normalize colliding_books 10) 10 <> normalize colliding_books 10.
Proof.
  split; [vm_compute; reflexivity|]. split; [vm_compute; reflexivity|].
  intros H. apply (f_equal (@List.length Book.t)) in H. vm_compute in H. discriminate.
Qed.




Lemma books_after_safety_net_nonempty (sample_binding : option (Z -> list Book.t))
  (answer : http_result) (num_books : Z) (books : list Book.t) :
  (forall f, sample_binding = Some f -> f num_books <> []) ->
  books_after_safety_net sample_binding answer num_books = Ok books ->
  books <> [].
Proof.
  intros Hf. destruct sample_binding as [f|].
  - rewrite books_bound. intros H. injection H as <-.
    unfold degraded. destruct (parsed answer num_books) as [[|b parsed_books]|];
      try discriminate; now apply Hf.
  - unfold books_after_safety_net, books_after_try, generated.
    destruct (parsed answer num_books) as [[|b parsed_books]|];
      intros H; try discriminate. injection H as <-. discriminate.
Qed.

(** C10.  For a positive count and a fallback generator that yields at
    least one record whenever it is bound, every list the fetch task
    pushes is non-empty, so that the insert task pulling it passes its
    empty-input test and, the count query answering, ends without an
    exception.  With the fallback bound the fetch task always pushes, and
    when nothing was parsed (a degraded answer, which includes an empty
    item list) what it pushes is the cleaned output of the generator. *)
Theorem handoff_is_not_empty (sample_binding : option (Z -> list Book.t))
  (network : Request.t -> http_result) (run_fault : nat -> option Fault.t)
  (num_books : Z) (w : World) :
  0 < num_books ->
  (forall f, sample_binding = Some f -> f num_books <> []) ->
  let run := fetch_books_from_google_api sample_binding network num_books
               (TaskInstance.mk "fetch_book_data") w in
  (fst run = Ok tt ->
   exists books,
     handoff (snd run) = Some books /\ books <> [] /\
     fst (insert_book_data_into_postgres run_fault None
            (TaskInstance.mk "insert_book_data") (snd run)) = Ok tt) /\
  (forall f, sample_binding = Some f ->
     fst run = Ok tt /\
     (degraded (network (request_for num_books)) num_books = true ->
      handoff (snd run) = Some (normalize (f num_books) num_books))).
Proof.
  intros Hn Hf run. subst run.
  destruct (fetch_run sample_binding network num_books
              (TaskInstance.mk "fetch_book_data") w) as [entries Hrun].
  split.
  - destruct (books_after_safety_net sample_binding (network (request_for num_books))
                num_books) as [books | e] eqn:Hbooks;
      rewrite Hrun; [|discriminate].
    intros _. cbn [fst snd].
    exists (normalize books num_books).
    pose proof (books_after_safety_net_nonempty _ _ _ _ Hf Hbooks) as Hne.
    pose proof (normalize_nonempty _ _ Hn Hne) as Hnorm.
    assert (Hpull : handoff
              {| sent := sent w ++ [request_for num_books];
                 xcom := xcom_set
                           (TaskInstance.task_id (TaskInstance.mk "fetch_book_data"),
                            "book_data") (normalize books num_books) (xcom w);
                 db := db w;
                 log := log w ++ entries |} = Some (normalize books num_books)).
    { unfold handoff. cbn [xcom TaskInstance.task_id]. apply xcom_lookup_set. }
    split; [exact Hpull|]. split; [exact Hnorm|].
    destruct (normalize books num_books) as [|b rest]; [congruence|].
    now rewrite (insert_run_books run_fault _ _ b rest Hpull).
  - intros f ->. rewrite books_bound in Hrun. rewrite Hrun. cbn [fst snd].
    split; [reflexivity|]. intros ->.
    unfold handoff. cbn [xcom TaskInstance.task_id]. apply xcom_lookup_set.
Qed.

Lemma handoff_is_not_empty_witness :
  let run := fetch_books_from_google_api (Some numbered_samples) (answering http_500) 25
               (TaskInstance.mk "fetch_book_data") empty_world in
  (fst run = Ok tt ->
   exists books,
     handoff (snd run) = Some books /\ books <> [] /\
     fst (insert_book_data_into_postgres no_fault None
            (TaskInstance.mk "insert_book_data") (snd run)) = Ok tt) /\
  (forall f, Some numbered_samples = Some f ->
     fst run = Ok tt /\
     (degraded (answering http_500 (request_for 25)) 25 = true ->
      handoff (snd run) = Some (normalize (f 25) 25))).
Proof.
  apply (handoff_is_not_empty (Some numbered_samples) (answering http_500) no_fault 25
           empty_world).
  - lia.
  - intros f H. injection H as <-. vm_compute. discriminate.
Defined.

(** ** Rows, partial failure, empty input and upsert *)

(** C2, as stated, fails: a DAG run starts with [create_table_task], which
    drops the table.  A row present before the run, of a title the API
    does not return, is gone after it. *)
Lemma dag_run_drops_rows :
  ~ rows_preserved (db world_with_old_row)
      (db (snd (dag_run app_py_sample_binding (answering one_volume) no_fault None
                  world_with_old_row))).
Proof.
  intros H. destruct (H old_row (or_introl eq_refl)) as [r [Hin [_ Htitle]]].
  vm_compute in Hin. destruct Hin as [<- | []]. vm_compute in Htitle. discriminate.
Qed.

(** C2, amended.  Neither the fetch task nor the insert task deletes a
    row: whatever the network, the fallback and the database faults, every
    row of the table before the task is a row of the table after it, under
    the same id and title.  Rows are deleted by [create_table_task] alone,
    the first task of every DAG run, which leaves the table empty. *)
Theorem tasks_delete_no_row (sample_binding : option (Z -> list Book.t))
  (network : Request.t -> http_result) (run_fault : nat -> option Fault.t)
  (get_first_fault : option string) (num_books : Z) (ti : TaskInstance.t) (w : World) :
  rows_preserved (db w)
    (db (snd (fetch_books_from_google_api sample_binding network num_books ti w))) /\
  rows_preserved (db w)
    (db (snd (insert_book_data_into_postgres run_fault get_first_fault ti w))) /\
  book (db (snd (create_table_task w))) = [].
Proof.
  split; [|split].
  - destruct (fetch_run sample_binding network num_books ti w) as [entries ->].
    destruct (books_after_safety_net sample_binding (network (request_for num_books))
                num_books); apply rows_preserved_refl.
  - rewrite insert_run_db.
    destruct (handoff w) as [[|b rest]|];
      [apply rows_preserved_refl | apply persisted_rows_preserved | apply rows_preserved_refl].
  - reflexivity.
Qed.

(** C3, as stated, fails: the insert task returns [None], not a summary.
    A run in which one upsert of two fails and a run in which none fails
    return the same value. *)
Lemma insert_returns_no_summary :
  let failing := insert_book_data_into_postgres first_fails None
                   (TaskInstance.mk "insert_book_data") (world_with_handoff two_books) in
  let clean := insert_book_data_into_postgres no_fault None
                 (TaskInstance.mk "insert_book_data") (world_with_handoff two_books) in
  fst failing = fst clean /\
  List.length (errors (log (snd failing))) = 1%nat /\
  List.length (errors (log (snd clean))) = 0%nat.
Proof. vm_compute. repeat split. Qed.

Lemma row_content_do_update (b : Book.t) (r : Row.t) :
  row_content (do_update (parameters_of b) r) =
  if (Row.title r =? Book.title b)%string
  then (Row.title r, Book.author b, Book.price b, Book.rating b)
  else row_content r.
Proof.
  unfold do_update, parameters_of. now destruct (Row.title r =? Book.title b)%string.
Qed.

(** The statement does to the rows, ids apart, what it does to the rows of
    any table of the same rows, ids apart. *)
Lemma insert_query_content (b : Book.t) (d1 d2 : Db) :
  map row_content (book d1) = map row_content (book d2) ->
  map row_content (book (insert_query (parameters_of b) d1))
  = map row_content (book (insert_query (parameters_of b) d2)).
Proof.
  intros H.
  assert (Htitles : map Row.title (book d1) = map Row.title (book d2)).
  { change Row.title with (fun r => fst (fst (fst (row_content r)))).
    rewrite <- !(map_map row_content (fun c => fst (fst (fst c)))). now rewrite H. }
  assert (Hheld : has_title (Book.title b) d1 = has_title (Book.title b) d2).
  { apply eq_true_iff_eq. rewrite !has_title_spec. now rewrite Htitles. }
  rewrite !insert_query_book, Hheld.
  destruct (has_title (Book.title b) d2).
  - set (g := fun c : string * string * string * string =>
                if (fst (fst (fst c)) =? Book.title b)%string
                then (fst (fst (fst c)), Book.author b, Book.price b, Book.rating b)
                else c).
    assert (Hg : forall rows,
              map row_content (map (do_update (parameters_of b)) rows)
              = map g (map row_content rows)).
    { intros rows. rewrite !map_map. apply map_ext. intros r.
      apply row_content_do_update. }
    now rewrite !Hg, H.
  - rewrite !map_app. now rewrite H.
Qed.

Lemma upsert_all_content (books : list Book.t) (d1 d2 : Db) :
  map row_content (book d1) = map row_content (book d2) ->
  map row_content (book (upsert_all books d1))
  = map row_content (book (upsert_all books d2)).
Proof.
  revert d1 d2. induction books as [|b books IH]; intros d1 d2 H; [exact H|].
  apply (IH (insert_query (parameters_of b) d1) (insert_query (parameters_of b) d2)).
  now apply insert_query_content.
Qed.

(** C3, amended.  The insert task returns nothing; it logs the number of
    upserts that succeeded and an error line for each that failed.  If
    exactly one upsert of the batch fails, the upserts of the other
    records are made, in their order: the table ends as they leave it,
    the failed statement having at most moved the id sequence on, so that
    the rows are, ids apart, those the other records alone would have
    left, each of their titles among them.  The log gets the line
    announcing the batch, the one error line, for the title of the failed
    record, and the count of the others.  When the closing count query
    answers, the task logs the total and ends without an exception; when
    that query fails, the task logs a second error line and raises an
    [Exception] with the message of the query's failure, the upserts
    staying made. *)
Theorem insert_partial_failure (run_fault : nat -> option Fault.t)
  (get_first_fault : option string) (ti : TaskInstance.t)
  (w : World) (pre post : list Book.t) (b : Book.t) (f : Fault.t) :
  handoff w = Some (pre ++ b :: post)%list ->
  run_fault (List.length pre) = Some f ->
  (forall j, j <> List.length pre -> run_fault j = None) ->
  let run := insert_book_data_into_postgres run_fault get_first_fault ti w in
  let attempting :=
    (INFO, ("Attempting to insert "
            ++ str_of_int (Z.of_nat (List.length (pre ++ b :: post)))
            ++ " book into database")%string) in
  let failed :=
    (ERROR, ("Error inserting book '" ++ Book.title b ++ "': "
             ++ Fault.message f)%string) in
  let processed :=
    (INFO, ("Successfully processed "
            ++ str_of_int (Z.of_nat (List.length (pre ++ post)))
            ++ " books in database")%string) in
  db (snd run) = upsert_all post (failed_statement f (upsert_all pre (db w))) /\
  map row_content (book (db (snd run)))
  = map row_content (book (upsert_all (pre ++ post) (db w))) /\
  (forall b', In b' (pre ++ post) -> has_title (Book.title b') (db (snd run)) = true) /\
  match get_first_fault with
  | None =>
      fst run = Ok tt /\
      log (snd run) =
        (log w
         ++ [attempting; failed; processed;
             (INFO, ("Total books in database: "
                     ++ str_of_int (Z.of_nat (List.length (book (db (snd run))))))%string)])%list
  | Some msg =>
      fst run = Raise (Exception ("Error in database operation: " ++ msg)) /\
      log (snd run) =
        (log w
         ++ [attempting; failed; processed;
             (ERROR, ("Error in database operation: " ++ msg)%string)])%list
  end.
Proof.
  intros Hpull Hfault Hothers run attempting failed processed.
  subst run attempting failed processed.
  destruct (loop_with_one_fault run_fault pre b post f (db w) Hfault Hothers)
    as [Hdb [Hcount Hlog]].
  assert (Hcontent :
    map row_content (book (upsert_all post (failed_statement f (upsert_all pre (db w)))))
    = map row_content (book (upsert_all (pre ++ post) (db w)))).
  { rewrite upsert_all_app. apply upsert_all_content.
    now rewrite failed_statement_book. }
  assert (Htitles : forall b', In b' (pre ++ post) ->
    has_title (Book.title b')
      (upsert_all post (failed_statement f (upsert_all pre (db w)))) = true).
  { intros b' Hb'. apply has_title_spec.
    change Row.title with (fun r => fst (fst (fst (row_content r)))).
    rewrite <- (map_map row_content (fun c => fst (fst (fst c)))), Hcontent, map_map.
    change (fun r => fst (fst (fst (row_content r)))) with Row.title.
    apply has_title_spec. now apply upsert_all_has_titles. }
  destruct (pre ++ b :: post)%list as [|b0 rest] eqn:Hbatch.
  { destruct pre; discriminate. }
  destruct get_first_fault as [msg|].
  - rewrite (insert_run_count_fails run_fault ti w b0 rest msg Hpull).
    cbn [fst snd db log]. rewrite Hdb, Hcount, Hlog.
    repeat split; assumption.
  - rewrite (insert_run_books run_fault ti w b0 rest Hpull).
    cbn [fst snd db log]. rewrite Hdb, Hcount, Hlog.
    repeat split; assumption.
Qed.

Lemma insert_partial_failure_witness :
  let run := insert_book_data_into_postgres first_fails None
               (TaskInstance.mk "insert_book_data") (world_with_handoff two_books) in
  fst run = Ok tt /\
  db (snd run) = mkDb [Row.mk 2 "Second" "B" "Free" "N/A"] 3 /\
  errors (log (snd run))
  = ["Error inserting book 'First': canceling statement due to statement timeout"].
Proof.
  destruct (insert_partial_failure first_fails None (TaskInstance.mk "insert_book_data")
              (world_with_handoff two_books) [] [Book.mk "Second" "B" "Free" "N/A"]
              (Book.mk "First" "A" "N/A" "N/A")
              (Fault.mk "canceling statement due to statement timeout" true))
    as [Hdb [_ [_ [Hok Hlog]]]].
  - reflexivity.
  - reflexivity.
  - intros [|j] Hj; [now elim Hj | reflexivity].
  - split; [exact Hok|]. split; [now rewrite Hdb | now rewrite Hlog].
Defined.

(** C4.  On an empty sequence the insert task raises: the [ValueError] of
    its empty-input test leaves the task wrapped in an [Exception] that
    carries its message.  No statement has been sent: the table, its
    sequence and XCom are as before. *)
Theorem insert_empty_input (run_fault : nat -> option Fault.t)
  (get_first_fault : option string) (ti : TaskInstance.t) (w : World) :
  handoff w = Some [] ->
  let run := insert_book_data_into_postgres run_fault get_first_fault ti w in
  fst run = Raise (Exception "Error in database operation: No book data found in XCom") /\
  db (snd run) = db w /\
  xcom (snd run) = xcom w.
Proof.
  intros H run. subst run. rewrite insert_run_nothing by tauto. repeat split.
Qed.

Lemma insert_empty_input_witness :
  let run := insert_book_data_into_postgres no_fault None
               (TaskInstance.mk "insert_book_data") (world_with_handoff []) in
  fst run = Raise (Exception "Error in database operation: No book data found in XCom") /\
  db (snd run) = db (world_with_handoff []) /\
  xcom (snd run) = xcom (world_with_handoff []).
Proof.
  apply (insert_empty_input no_fault None (TaskInstance.mk "insert_book_data")
           (world_with_handoff [])).
  reflexivity.
Defined.

Lemma persisted_no_fault (book_data : list Book.t) (d : Db) :
  persisted no_fault book_data 0 d = upsert_all book_data d.
Proof. now apply loop_without_fault. Qed.

(** C7.  The statement of the insert task on a table that holds the title
    of the record: the table keeps its length and its rows their ids and
    titles, in place; the rows of that title carry the author, price and
    rating of the record; the other rows are rows of the table before.
    And the insert task run a second time on the same pushed records, no
    statement failing, leaves the rows of the table as the first run left
    them. *)
Theorem upsert_overwrites_and_repeats (b : Book.t) (d : Db)
  (ti : TaskInstance.t) (w : World) (book_data : list Book.t) :
  has_title (Book.title b) d = true ->
  handoff w = Some book_data ->
  let d' := insert_query (parameters_of b) d in
  let once := snd (insert_book_data_into_postgres no_fault None ti w) in
  let twice := snd (insert_book_data_into_postgres no_fault None ti once) in
  (List.length (book d') = List.length (book d) /\
   map Row.id (book d') = map Row.id (book d) /\
   map Row.title (book d') = map Row.title (book d) /\
   (forall r, In r (book d') -> Row.title r = Book.title b ->
      Row.authors r = Book.author b /\ Row.price r = Book.price b /\
      Row.rating r = Book.rating b) /\
   (forall r, In r (book d') -> Row.title r <> Book.title b -> In r (book d))) /\
  (book (db once) = book (upsert_all book_data (db w)) /\
   book (db twice) = book (db once)).
Proof.
  intros Hheld Hpull d' once twice. split.
  - subst d'. rewrite insert_query_book, Hheld.
    split; [apply length_map|].
    split; [rewrite map_map; apply map_ext; intros r; apply do_update_id|].
    split; [rewrite map_map; apply map_ext; intros r; apply do_update_title|].
    split.
    + intros r Hr Ht. apply in_map_iff in Hr. destruct Hr as [r0 [<- _]].
      rewrite do_update_title in Ht. rewrite do_update_same_title by assumption.
      now repeat split.
    + intros r Hr Ht. apply in_map_iff in Hr. destruct Hr as [r0 [<- Hr0]].
      rewrite do_update_title in Ht. now rewrite do_update_other_title.
  - assert (Honce : db once = upsert_all book_data (db w)).
    { subst once. rewrite insert_run_db, Hpull.
      destruct book_data; [reflexivity | apply persisted_no_fault]. }
    assert (Hpull' : handoff once = Some book_data).
    { subst once. destruct book_data as [|b0 rest].
      - now rewrite insert_run_nothing by tauto.
      - now rewrite (insert_run_books no_fault ti w b0 rest Hpull). }
    split; [now rewrite Honce|].
    subst twice. rewrite insert_run_db, Hpull', Honce.
    destruct book_data as [|b0 rest]; [reflexivity|].
    rewrite persisted_no_fault. apply upsert_all_twice.
Qed.

Lemma upsert_overwrites_and_repeats_witness :
  let b := Book.mk "Designing Data-Intensive Applications" "M. Kleppmann" "39.99 USD"
             "4.5/5 (12 reviews)" in
  let d' := insert_query (parameters_of b) (db world_with_old_row) in
  let w := world_with_handoff two_books in
  let once := snd (insert_book_data_into_postgres no_fault None
                     (TaskInstance.mk "insert_book_data") w) in
  let twice := snd (insert_book_data_into_postgres no_fault None
                      (TaskInstance.mk "insert_book_data") once) in
  List.length (book d') = 1%nat /\ book (db twice) = book (db once).
Proof.
  intros b d' w once twice.
  destruct (upsert_overwrites_and_repeats b (db world_with_old_row)
              (TaskInstance.mk "insert_book_data") w two_books)
    as [[Hlen _] [_ Htwice]].
  - reflexivity.
  - reflexivity.
  - split; [exact Hlen | exact Htwice].
Defined.

(** * Further properties *)

(** ** Parsing *)

(** X1.  The rating of a volume: with an average rating it is
    ["<rating>/5 (<count> reviews)"], the count being the ratings count
    or, without one, 0; without an average rating it is ["N/A"], whatever
    the ratings count. *)
Theorem derive_rating_rule (volume_info : VolumeInfo.t) :
  (forall rating,
     VolumeInfo.averageRating volume_info = Some (Number rating) ->
     derive_rating volume_info
     = rating ++ "/5 ("
       ++ match VolumeInfo.ratingsCount volume_info with
          | Some (Number rating_count) => rating_count
          | None => "0"
          end
       ++ " reviews)") /\
  (VolumeInfo.averageRating volume_info = None -> derive_rating volume_info = "N/A").
Proof.
  destruct volume_info as [title authors rating rating_count]. unfold derive_rating.
  cbn [VolumeInfo.averageRating VolumeInfo.ratingsCount]. split.
  - intros r ->. cbn. now destruct rating_count as [[c]|].
  - intros ->. reflexivity.
Qed.

Lemma derive_rating_rule_witness :
  derive_rating (VolumeInfo.mk None None (Some (Number "4.5")) None) = "4.5/5 (0 reviews)" /\
  derive_rating (VolumeInfo.mk None None None (Some (Number "12"))) = "N/A".
Proof.
  split.
  - apply (proj1 (derive_rating_rule (VolumeInfo.mk None None (Some (Number "4.5")) None))
             "4.5").
    reflexivity.
  - apply (proj2 (derive_rating_rule (VolumeInfo.mk None None None (Some (Number "12"))))).
    reflexivity.
Defined.

(** X2.  The loop over the items ends well exactly when the body of the
    loop raises on none of them, and it then appends one record an item,
    in the order of the items, each the record of its item.  Otherwise it
    raises what the body raises on the first item it raises on, as the
    [AttributeError] on an item that is not an object, which names the
    Python type of the item. *)
Theorem process_items_all_or_first_exception (items : list item) (books : list Book.t) :
  (forallb parses items = true ->
   exists new_books,
     process_items items books = Ok (books ++ new_books)%list /\
     map parse_item items = map Ok new_books) /\
  (forallb parses items = false ->
   exists pre it post e,
     items = (pre ++ it :: post)%list /\
     forallb parses pre = true /\
     parse_item it = Raise e /\
     process_items items books = Raise e).
Proof.
  split; [apply process_items_parsed|].
  intros H.
  assert (Hsplit : exists pre it post e,
            items = (pre ++ it :: post)%list /\ forallb parses pre = true /\
            parse_item it = Raise e).
  { induction items as [|it items IH]; [discriminate|].
    cbn [forallb] in H. destruct (parses it) eqn:Hit.
    - destruct (IH H) as [pre [it' [post [e [-> [Hpre He]]]]]].
      exists (it :: pre), it', post, e. cbn [forallb app]. now rewrite Hit.
    - unfold parses in Hit. destruct (parse_item it) as [b|e] eqn:Hb; [discriminate|].
      now exists [], it, items, e. }
  destruct Hsplit as [pre [it [post [e [-> [Hpre He]]]]]].
  exists pre, it, post, e. repeat split; try assumption.
  now apply process_items_first_exception.
Qed.

Lemma process_items_all_or_first_exception_witness :
  (exists new_books,
     process_items [kubernetes_in_action] [] = Ok ([] ++ new_books)%list /\
     map parse_item [kubernetes_in_action] = map Ok new_books) /\
  (exists pre it post e,
     [kubernetes_in_action; NotAnObject (NotDictString "volume")] = (pre ++ it :: post)%list /\
     forallb parses pre = true /\
     parse_item it = Raise e /\
     process_items [kubernetes_in_action; NotAnObject (NotDictString "volume")] []
     = Raise e) /\
  parse_item (NotAnObject (NotDictString "volume"))
  = Raise (AttributeError "'str' object has no attribute 'get'").
Proof.
  split; [|split].
  - apply (proj1 (process_items_all_or_first_exception [kubernetes_in_action] [])).
    reflexivity.
  - apply (proj2 (process_items_all_or_first_exception
                    [kubernetes_in_action; NotAnObject (NotDictString "volume")] [])).
    reflexivity.
  - reflexivity.
Defined.

Lemma slice_to_app {A : Type} (num_books : Z) (l extra : list A) :
  Z.of_nat (List.length l) = num_books -> slice_to num_books (l ++ extra) = l.
Proof.
  intros H. unfold slice_to.
  destruct (0 <=? num_books) eqn:E; [|apply Z.leb_gt in E; lia].
  replace (Z.to_nat num_books) with (List.length l + 0)%nat by lia.
  rewrite firstn_app_2. simpl. apply app_nil_r.
Qed.

(** X3.  Items after the first [num_books] are never looked at: appended
    to a list of [num_books] items, whatever they are, they change neither
    the outcome of the fetch task nor what it pushes. *)
Theorem fetch_ignores_items_beyond_count (sample_binding : option (Z -> list Book.t))
  (network network' : Request.t -> http_result) (num_books : Z) (ti : TaskInstance.t)
  (w : World) (items extra : list item) :
  Z.of_nat (List.length items) = num_books ->
  network (request_for num_books)
  = Responded (Response.mk 200 (Json (Document.mk (Some items)))) ->
  network' (request_for num_books)
  = Responded (Response.mk 200 (Json (Document.mk (Some (items ++ extra)%list)))) ->
  let run := fetch_books_from_google_api sample_binding network num_books ti w in
  let run' := fetch_books_from_google_api sample_binding network' num_books ti w in
  fst run' = fst run /\ xcom (snd run') = xcom (snd run).
Proof.
  intros Hlen Hnet Hnet' run run'. subst run run'.
  destruct (fetch_run sample_binding network num_books ti w) as [entries ->].
  destruct (fetch_run sample_binding network' num_books ti w) as [entries' ->].
  rewrite Hnet, Hnet'.
  assert (Hsame :
    books_after_safety_net sample_binding
      (Responded (Response.mk 200 (Json (Document.mk (Some (items ++ extra)%list)))))
      num_books
    = books_after_safety_net sample_binding
        (Responded (Response.mk 200 (Json (Document.mk (Some items))))) num_books).
  { unfold books_after_safety_net, books_after_try, parsed.
    cbn [Response.status_code Response.content Document.items get].
    rewrite (slice_to_app num_books items extra Hlen).
    rewrite <- (app_nil_r items) at 2.
    now rewrite (slice_to_app num_books items [] Hlen). }
  rewrite Hsame.
  destruct (books_after_safety_net sample_binding
              (Responded (Response.mk 200 (Json (Document.mk (Some items))))) num_books);
    now split.
Qed.

Lemma fetch_ignores_items_beyond_count_witness :
  let run := fetch_books_from_google_api app_py_sample_binding (answering one_volume) 1
               sample_task_instance empty_world in
  let run' := fetch_books_from_google_api app_py_sample_binding
                (answering one_volume_one_string) 1 sample_task_instance empty_world in
  fst run' = fst run /\ xcom (snd run') = xcom (snd run).
Proof.
  apply (fetch_ignores_items_beyond_count app_py_sample_binding (answering one_volume)
           (answering one_volume_one_string) 1 sample_task_instance empty_world
           [kubernetes_in_action] [NotAnObject (NotDictString "volume")]); reflexivity.
Defined.

(** X4.  An item that is not an object among the first [num_books] items
    costs the whole response: with the fallback bound, the task pushes the
    cleaned records of the generator, and none parsed from the items
    before the bad one. *)
Theorem fetch_discards_parsed_books (f : Z -> list Book.t)
  (network : Request.t -> http_result) (num_books : Z) (ti : TaskInstance.t)
  (w : World) (data : Document.t) :
  network (request_for num_books) = Responded (Response.mk 200 (Json data)) ->
  forallb is_volume (slice_to num_books (get (Document.items data) [])) = false ->
  let run := fetch_books_from_google_api (Some f) network num_books ti w in
  fst run = Ok tt /\
  xcom_lookup (TaskInstance.task_id ti, "book_data") (xcom (snd run))
  = Some (normalize (f num_books) num_books).
Proof.
  intros Hnet Hbad run. subst run.
  destruct (fetch_run (Some f) network num_books ti w) as [entries ->].
  rewrite books_bound, Hnet.
  assert (Hdegraded : degraded (Responded (Response.mk 200 (Json data))) num_books = true).
  { unfold degraded, parsed. cbn [Response.status_code Response.content].
    change (200 =? 200) with true. cbv iota.
    destruct (process_items_raises _ [] Hbad) as [e ->]. reflexivity. }
  rewrite Hdegraded. cbn [fst snd xcom]. split; [reflexivity | apply xcom_lookup_set].
Qed.

Lemma fetch_discards_parsed_books_witness :
  let run := fetch_books_from_google_api (Some numbered_samples)
               (answering one_volume_one_string) 25 sample_task_instance empty_world in
  fst run = Ok tt /\
  xcom_lookup (TaskInstance.task_id sample_task_instance, "book_data") (xcom (snd run))
  = Some (normalize (numbered_samples 25) 25).
Proof.
  apply (fetch_discards_parsed_books numbered_samples (answering one_volume_one_string) 25
           sample_task_instance empty_world
           (Document.mk (Some [kubernetes_in_action; NotAnObject (NotDictString "volume")])));
    reflexivity.
Defined.

(** ** Duplicates and cuts *)

Lemma first_with_title_None (title : string) (books : list Book.t) :
  first_with_title title books = None <-> ~ In title (map Book.title books).
Proof.
  unfold first_with_title. induction books as [|b books IH]; simpl; [tauto|].
  destruct (String.eqb_spec (Book.title b) title) as [Heq | Hne].
  - split; [discriminate | intros H; exfalso; apply H; now left].
  - rewrite IH. tauto.
Qed.

Lemma drop_duplicates_seen_first (seen : list string) (df : list Book.t) (title : string) :
  first_with_title title (drop_duplicates_seen seen df) =
  if existsb (String.eqb title) seen then None else first_with_title title df.
Proof.
  revert seen. induction df as [|b df IH]; intros seen.
  - simpl. now destruct (existsb (String.eqb title) seen).
  - cbn [drop_duplicates_seen].
    destruct (existsb (String.eqb (Book.title b)) seen) eqn:Hb.
    + rewrite IH. destruct (existsb (String.eqb title) seen) eqn:Ht; [reflexivity|].
      unfold first_with_title. cbn [find].
      destruct (String.eqb_spec (Book.title b) title) as [Heq | Hne]; [|reflexivity].
      congruence.
    + unfold first_with_title. cbn [find]. fold (first_with_title title df).
      fold (first_with_title title (drop_duplicates_seen (Book.title b :: seen) df)).
      destruct (String.eqb_spec (Book.title b) title) as [Heq | Hne].
      * subst title. now rewrite Hb.
      * rewrite IH. cbn [existsb].
        destruct (String.eqb_spec title (Book.title b)) as [Heq' | _]; [congruence|].
        reflexivity.
Qed.

(** X5.  [drop_duplicates] keeps, of every title, the first record: the
    first record of a title in the output is the first record of that
    title in the input. *)
Theorem drop_duplicates_keeps_first (df : list Book.t) (title : string) :
  first_with_title title (drop_duplicates df) = first_with_title title df.
Proof. unfold drop_duplicates. now rewrite drop_duplicates_seen_first. Qed.

(** X6.  [drop_duplicates] leaves every title of the input exactly once:
    the titles of the output are pairwise distinct, and a title is in the
    output if and only if it is in the input. *)
Theorem drop_duplicates_titles (df : list Book.t) :
  NoDup (map Book.title (drop_duplicates df)) /\
  (forall title,
     In title (map Book.title (drop_duplicates df)) <-> In title (map Book.title df)).
Proof.
  split; [apply drop_duplicates_seen_NoDup|].
  intros title.
  destruct (in_dec string_dec title (map Book.title (drop_duplicates df))) as [H | H];
    destruct (in_dec string_dec title (map Book.title df)) as [H' | H']; try tauto;
    exfalso.
  - apply first_with_title_None in H'.
    rewrite <- drop_duplicates_keeps_first in H'. now apply first_with_title_None in H'.
  - apply first_with_title_None in H.
    rewrite drop_duplicates_keeps_first in H. now apply first_with_title_None in H.
Qed.

(** X7.  Cleaning invents no record and adds none: every record of the
    output is a record of the input with its four fields cut, and the
    output is no longer than the input, whatever the count. *)
Theorem normalize_cuts_input_records (books : list Book.t) (num_books : Z) :
  (forall b, In b (normalize books num_books) ->
     exists b0, In b0 books /\ b = str_columns b0) /\
  (List.length (normalize books num_books) <= List.length books)%nat.
Proof.
  rewrite normalize_equation. split.
  - intros b Hb. apply in_map_iff in Hb. destruct Hb as [b0 [<- Hb0]].
    exists b0. split; [|reflexivity].
    now apply drop_duplicates_incl, (slice_to_incl num_books).
  - rewrite length_map.
    assert (Hslice : (List.length (slice_to num_books (drop_duplicates books))
                      <= List.length (drop_duplicates books))%nat).
    { unfold slice_to. destruct (0 <=? num_books); rewrite length_firstn; lia. }
    assert (Hdedup : forall seen df,
              (List.length (drop_duplicates_seen seen df) <= List.length df)%nat).
    { intros seen df. revert seen. induction df as [|a df IH]; intros seen; simpl; [lia|].
      destruct (existsb (String.eqb (Book.title a)) seen); simpl;
        [specialize (IH seen) | specialize (IH (Book.title a :: seen))]; lia. }
    specialize (Hdedup [] books). unfold drop_duplicates in *. lia.
Qed.

(** X8.  When no title of the input is longer than 200 characters, the
    titles of a cleaned batch are pairwise distinct. *)
Theorem normalize_unique_short_titles (books : list Book.t) (num_books : Z) :
  Forall (fun b => (String.length (Book.title b) <= 200)%nat) books ->
  NoDup (map Book.title (normalize books num_books)).
Proof.
  intros H. now apply normalize_titles_unique, short_titles_survive_slicing.
Qed.

Lemma normalize_unique_short_titles_witness :
  NoDup (map Book.title (normalize same_title_twice 10)).
Proof.
  apply (normalize_unique_short_titles same_title_twice 10).
  repeat (constructor; [cbn; lia|]). constructor.
Defined.

(** X9.  For a count that is not negative and titles that cutting cannot
    make equal, cleaning is idempotent. *)
Theorem normalize_idempotent_on_surviving_titles (books : list Book.t) (num_books : Z) :
  0 <= num_books ->
  titles_survive_slicing books ->
  normalize (normalize books num_books) num_books = normalize books num_books.
Proof. apply normalize_fixed_point. Qed.

Lemma normalize_idempotent_on_surviving_titles_witness :
  normalize (normalize same_title_twice 10) 10 = normalize same_title_twice 10.
Proof.
  apply (normalize_idempotent_on_surviving_titles same_title_twice 10).
  - lia.
  - apply short_titles_survive_slicing.
    repeat (constructor; [cbn; lia|]). constructor.
Defined.

(** ** Effects of the fetch task *)

(** X10.  Whatever the answer of the network and whether the task ends
    well or raises, one execution of the fetch task sends exactly one
    request, with [maxResults] the smaller of the count and 40 and a
    timeout of 30; it only appends to the log, never touches the table,
    and pushes nothing when it raises. *)
Theorem fetch_effects (sample_binding : option (Z -> list Book.t))
  (network : Request.t -> http_result) (num_books : Z) (ti : TaskInstance.t) (w : World) :
  let run := fetch_books_from_google_api sample_binding network num_books ti w in
  sent (snd run)
  = (sent w ++ [Request.mk (google_books_url "data+engineering" (Z.min num_books 40)) 30])%list /\
  db (snd run) = db w /\
  (exists entries, log (snd run) = (log w ++ entries)%list) /\
  (fst run <> Ok tt -> xcom (snd run) = xcom w).
Proof.
  intros run. subst run.
  destruct (fetch_run sample_binding network num_books ti w) as [entries ->].
  destruct (books_after_safety_net sample_binding (network (request_for num_books))
              num_books) as [books | e]; cbn [fst snd sent db log xcom];
    (split; [reflexivity|]); (split; [reflexivity|]); (split; [now exists entries|]).
  - intros H. now elim H.
  - reflexivity.
Qed.

Lemma fetch_effects_witness :
  let run := fetch_books_from_google_api app_py_sample_binding (answering http_500) 25
               sample_task_instance world_with_old_row in
  fst run <> Ok tt /\ xcom (snd run) = xcom world_with_old_row.
Proof.
  assert (H : fst (fetch_books_from_google_api app_py_sample_binding (answering http_500) 25
                     sample_task_instance world_with_old_row) <> Ok tt).
  { vm_compute. discriminate. }
  split; [exact H|].
  exact (proj2 (proj2 (proj2 (fetch_effects app_py_sample_binding (answering http_500) 25
                                sample_task_instance world_with_old_row))) H).
Defined.

(** X11.  With [generate_sample_book_data] unbound, as in [app.py], the
    fetch task ends well exactly when the response has status 200, its
    body is JSON, and the loop over the first [num_books] items ends well
    with at least one record, the body of the loop raising on none of
    them; it then pushes the cleaned parsed records.  In every other case
    the exception it raises is [NameError]. *)
Theorem fetch_unbound_outcome (network : Request.t -> http_result) (num_books : Z)
  (ti : TaskInstance.t) (w : World) :
  let run := fetch_books_from_google_api app_py_sample_binding network num_books ti w in
  (fst run = Ok tt <->
   exists status data b books,
     network (request_for num_books) = Responded (Response.mk status (Json data)) /\
     status = 200 /\
     process_items (slice_to num_books (get (Document.items data) [])) [] = Ok (b :: books) /\
     xcom_lookup (TaskInstance.task_id ti, "book_data") (xcom (snd run))
     = Some (normalize (b :: books) num_books)) /\
  (fst run <> Ok tt -> fst run = Raise (NameError "generate_sample_book_data")).
Proof.
  intros run. subst run. unfold app_py_sample_binding.
  destruct (fetch_run None network num_books ti w) as [entries ->].
  unfold books_after_safety_net, books_after_try, parsed, generated.
  destruct (network (request_for num_books)) as [msg | [status content]].
  - cbn [fst snd]. split; [|reflexivity].
    split; [discriminate|]. intros [s [d [b [books [H _]]]]]. discriminate.
  - cbn [Response.status_code Response.content].
    destruct (Z.eqb_spec status 200) as [-> | Hstatus].
    + destruct content as [msg | data].
      * cbn [fst snd]. split; [|reflexivity].
        split; [discriminate|]. intros [s [d [b [books [H _]]]]]. discriminate.
      * destruct (process_items (slice_to num_books (get (Document.items data) [])) [])
          as [[|b books] | e] eqn:Hitems; cbn [fst snd xcom].
        -- split; [|reflexivity]. split; [discriminate|].
           intros [s [d [b [books [H [_ [H' _]]]]]]]. injection H as _ <-.
           rewrite Hitems in H'. discriminate.
        -- split; [|intros H; now elim H]. split; [|reflexivity].
           intros _. exists 200, data, b, books.
           repeat split; [assumption | apply xcom_lookup_set].
        -- split; [|reflexivity]. split; [discriminate|].
           intros [s [d [b [books [H [_ [H' _]]]]]]]. injection H as _ <-.
           rewrite Hitems in H'. discriminate.
    + cbn [fst snd]. split; [|reflexivity].
      split; [discriminate|]. intros [s [d [b [books [H [H' _]]]]]].
      injection H as <- _. contradiction.
Qed.

Lemma fetch_unbound_outcome_witness :
  fst (fetch_books_from_google_api app_py_sample_binding (answering http_500) 25
         sample_task_instance empty_world)
  = Raise (NameError "generate_sample_book_data").
Proof.
  apply (proj2 (fetch_unbound_outcome (answering http_500) 25 sample_task_instance
                  empty_world)).
  vm_compute. discriminate.
Defined.

(** X21.  Whatever the answer of the network and the binding of the
    fallback, what the fetch task pushes when it ends well, for a count
    that is not negative, is a list of at most [num_books] records, each
    within the length bounds: title and author of at most 200 characters,
    price and rating of at most 50. *)
Theorem fetch_pushes_within_bounds (sample_binding : option (Z -> list Book.t))
  (network : Request.t -> http_result) (num_books : Z) (ti : TaskInstance.t) (w : World) :
  0 <= num_books ->
  let run := fetch_books_from_google_api sample_binding network num_books ti w in
  fst run = Ok tt ->
  exists final_books,
    xcom_lookup (TaskInstance.task_id ti, "book_data") (xcom (snd run)) = Some final_books /\
    Z.of_nat (List.length final_books) <= num_books /\
    Forall (fun b => well_formed b = true) final_books.
Proof.
  intros Hn run. subst run.
  destruct (fetch_run sample_binding network num_books ti w) as [entries ->].
  destruct (books_after_safety_net sample_binding (network (request_for num_books))
              num_books) as [books | e]; cbn [fst snd xcom]; [|discriminate].
  intros _. exists (normalize books num_books).
  split; [apply xcom_lookup_set|].
  split; [now apply normalize_length | apply normalize_well_formed].
Qed.

Lemma fetch_pushes_within_bounds_witness :
  exists final_books,
    xcom_lookup (TaskInstance.task_id sample_task_instance, "book_data")
      (xcom (snd (fetch_books_from_google_api app_py_sample_binding (answering one_volume)
                    25 sample_task_instance empty_world)))
    = Some final_books /\
    Z.of_nat (List.length final_books) <= 25 /\
    Forall (fun b => well_formed b = true) final_books.
Proof.
  apply (fetch_pushes_within_bounds app_py_sample_binding (answering one_volume) 25
           sample_task_instance empty_world).
  - lia.
  - reflexivity.
Defined.

(** ** The loop of the insert task *)

Lemma loop_by_outcomes (run_fault : nat -> option Fault.t) (book_data : list Book.t)
  (i : nat) :
  let from_i := combine book_data (map run_fault (seq i (List.length book_data))) in
  loop_log run_fault book_data i = flat_map error_line from_i /\
  inserted run_fault book_data i = Z.of_nat (List.length (filter succeeded from_i)) /\
  (List.length (filter succeeded from_i) + List.length (flat_map error_line from_i)
   = List.length book_data)%nat.
Proof.
  revert i. induction book_data as [|b rest IH]; intros i; [now repeat split|].
  destruct (IH (S i)) as [Hlog [Hcount Hsum]].
  cbn [List.length seq map combine loop_log inserted]. rewrite Hlog, Hcount.
  destruct (run_fault i) as [f|];
    cbn [flat_map filter error_line succeeded fst snd app List.length];
    repeat split; lia.
Qed.

(** X12.  The insert task loses no record silently.  On a non-empty batch
    of N records, the count query answering, it ends well whichever
    statements fail, and its log is: the line announcing N; for each
    record whose statement fails, in the order of the batch, the error
    line with its title and the message of the failure, and no line for
    the others; the line with the number of records whose statement did
    not fail; the line with the total.  That number and the number of
    error lines add up to N. *)
Theorem insert_counts_or_logs_every_record (run_fault : nat -> option Fault.t)
  (ti : TaskInstance.t) (w : World) (b : Book.t) (rest : list Book.t) :
  handoff w = Some (b :: rest) ->
  let run := insert_book_data_into_postgres run_fault None ti w in
  let failures := flat_map error_line (outcomes run_fault (b :: rest)) in
  let inserted_count :=
    Z.of_nat (List.length (filter succeeded (outcomes run_fault (b :: rest)))) in
  fst run = Ok tt /\
  inserted_count + Z.of_nat (List.length failures) = Z.of_nat (List.length (b :: rest)) /\
  log (snd run) =
    (log w
     ++ [(INFO, ("Attempting to insert "
                 ++ str_of_int (Z.of_nat (List.length (b :: rest)))
                 ++ " book into database")%string)]
     ++ failures
     ++ [(INFO, ("Successfully processed " ++ str_of_int inserted_count
                 ++ " books in database")%string);
         (INFO, ("Total books in database: "
                 ++ str_of_int (Z.of_nat (List.length (book (db (snd run))))))%string)])%list.
Proof.
  intros Hpull run failures inserted_count. subst run failures inserted_count.
  rewrite (insert_run_books run_fault ti w b rest Hpull). cbn [fst snd db log].
  destruct (loop_by_outcomes run_fault (b :: rest) 0) as [Hlog [Hcount Hsum]].
  unfold outcomes. rewrite <- Hlog, <- Hcount.
  split; [reflexivity|]. split; [|reflexivity].
  rewrite Hcount, Hlog. lia.
Qed.

Lemma insert_counts_or_logs_every_record_witness :
  let run := insert_book_data_into_postgres first_fails None
               (TaskInstance.mk "insert_book_data") (world_with_handoff two_books) in
  fst run = Ok tt /\
  log (snd run) =
    [(INFO, "Attempting to insert 2 book into database");
     (ERROR, "Error inserting book 'First': canceling statement due to statement timeout");
     (INFO, "Successfully processed 1 books in database");
     (INFO, "Total books in database: 1")].
Proof.
  destruct (insert_counts_or_logs_every_record first_fails
              (TaskInstance.mk "insert_book_data") (world_with_handoff two_books)
              (Book.mk "First" "A" "N/A" "N/A") [Book.mk "Second" "B" "Free" "N/A"])
    as [Hok [_ Hlog]].
  - reflexivity.
  - split; [exact Hok | now rewrite Hlog].
Defined.

Lemma persisted_all_fail (run_fault : nat -> option Fault.t) (book_data : list Book.t)
  (i : nat) (d : Db) :
  (forall j, run_fault j <> None) ->
  book (persisted run_fault book_data i d) = book d /\
  book_id_seq d <= book_id_seq (persisted run_fault book_data i d)
  <= book_id_seq d + Z.of_nat (List.length book_data).
Proof.
  intros H. revert i d. induction book_data as [|b rest IH]; intros i d.
  - cbn [persisted List.length]. split; [reflexivity | lia].
  - cbn [persisted]. destruct (run_fault i) as [f|] eqn:E; [|now elim (H i)].
    destruct (IH (S i) (failed_statement f d)) as [Hrows Hseq].
    rewrite Hrows, failed_statement_book. split; [reflexivity|].
    revert Hseq. unfold failed_statement. cbn [List.length].
    destruct (Fault.id_drawn f); cbn [book_id_seq]; lia.
Qed.

(** X13.  A batch all of whose upserts fail is not by itself an error of
    the task: unlike on an empty batch, the task ends well when the
    closing count query answers; it raises, with the message of that
    query's failure, only when that query fails as well.  Either way the
    rows of the table are as before; the failed statements can only have
    moved the id sequence on, by at most one each. *)
Theorem insert_survives_total_failure (run_fault : nat -> option Fault.t)
  (get_first_fault : option string) (ti : TaskInstance.t) (w : World)
  (b : Book.t) (rest : list Book.t) :
  handoff w = Some (b :: rest) ->
  (forall j, run_fault j <> None) ->
  let run := insert_book_data_into_postgres run_fault get_first_fault ti w in
  fst run = match get_first_fault with
            | None => Ok tt
            | Some msg => Raise (Exception ("Error in database operation: " ++ msg))
            end /\
  book (db (snd run)) = book (db w) /\
  book_id_seq (db w) <= book_id_seq (db (snd run))
  <= book_id_seq (db w) + Z.of_nat (List.length (b :: rest)).
Proof.
  intros Hpull Hfail run. subst run.
  split.
  - destruct get_first_fault as [msg|].
    + now rewrite (insert_run_count_fails run_fault ti w b rest msg Hpull).
    + now rewrite (insert_run_books run_fault ti w b rest Hpull).
  - rewrite insert_run_db, Hpull. now apply persisted_all_fail.
Qed.

Lemma insert_survives_total_failure_witness :
  let run := insert_book_data_into_postgres every_statement_fails None
               (TaskInstance.mk "insert_book_data") (world_with_handoff two_books) in
  let run' := insert_book_data_into_postgres every_statement_fails
                (Some "connection refused")
                (TaskInstance.mk "insert_book_data") (world_with_handoff two_books) in
  fst run = Ok tt /\
  fst run' = Raise (Exception ("Error in database operation: " ++ "connection refused")) /\
  book (db (snd run')) = book (db (world_with_handoff two_books)).
Proof.
  split; [|split].
  - apply (insert_survives_total_failure every_statement_fails None
             (TaskInstance.mk "insert_book_data") (world_with_handoff two_books)
             (Book.mk "First" "A" "N/A" "N/A") [Book.mk "Second" "B" "Free" "N/A"]).
    + reflexivity.
    + intros j. discriminate.
  - apply (insert_survives_total_failure every_statement_fails (Some "connection refused")
             (TaskInstance.mk "insert_book_data") (world_with_handoff two_books)
             (Book.mk "First" "A" "N/A" "N/A") [Book.mk "Second" "B" "Free" "N/A"]).
    + reflexivity.
    + intros j. discriminate.
  - apply (insert_survives_total_failure every_statement_fails (Some "connection refused")
             (TaskInstance.mk "insert_book_data") (world_with_handoff two_books)
             (Book.mk "First" "A" "N/A" "N/A") [Book.mk "Second" "B" "Free" "N/A"]).
    + reflexivity.
    + intros j. discriminate.
Defined.



(** ** The constraints of the table *)

Lemma NoDup_snoc {A : Type} (l : list A) (a : A) :
  NoDup l -> ~ In a l -> NoDup (l ++ [a]).
Proof.
  intros Hl Ha. induction l as [|x l IH]; simpl.
  - constructor; [intros [] | constructor].
  - apply NoDup_cons_iff in Hl. destruct Hl as [Hx Hl].
    constructor.
    + intros Hin. apply in_app_or in Hin. destruct Hin as [Hin | [Heq | []]].
      * contradiction.
      * apply Ha. now left.
    + apply IH; [assumption|]. intros Hin. apply Ha. now right.
Qed.

Lemma insert_query_seq (b : Book.t) (d : Db) :
  book_id_seq (insert_query (parameters_of b) d) = book_id_seq d + 1.
Proof.
  unfold insert_query, parameters_of. now destruct (existsb _ (book d)).
Qed.

Lemma insert_query_ids (b : Book.t) (d : Db) :
  map Row.id (book (insert_query (parameters_of b) d)) =
  if has_title (Book.title b) d
  then map Row.id (book d)
  else (map Row.id (book d) ++ [book_id_seq d])%list.
Proof.
  rewrite insert_query_book. destruct (has_title (Book.title b) d).
  - rewrite map_map. apply map_ext. intros r. apply do_update_id.
  - now rewrite map_app.
Qed.

Lemma insert_query_constraints (b : Book.t) (d : Db) :
  table_constraints d -> table_constraints (insert_query (parameters_of b) d).
Proof.
  intros [Htitles [Hids Hseq]]. unfold table_constraints.
  rewrite insert_query_titles, insert_query_ids, insert_query_seq.
  assert (Hbelow : forall r, In r (book (insert_query (parameters_of b) d)) ->
                     Row.id r < book_id_seq d + 1).
  { intros r Hr. rewrite Forall_forall in Hseq.
    assert (Hid : In (Row.id r) (map Row.id (book (insert_query (parameters_of b) d))))
      by now apply in_map.
    rewrite insert_query_ids in Hid.
    destruct (has_title (Book.title b) d).
    - apply in_map_iff in Hid. destruct Hid as [r0 [<- Hr0]].
      specialize (Hseq r0 Hr0). lia.
    - apply in_app_or in Hid. destruct Hid as [Hid | [<- | []]]; [|lia].
      apply in_map_iff in Hid. destruct Hid as [r0 [<- Hr0]].
      specialize (Hseq r0 Hr0). lia. }
  destruct (has_title (Book.title b) d) eqn:E.
  - split; [assumption|]. split; [assumption|]. now apply Forall_forall.
  - split; [|split; [|now apply Forall_forall]].
    + apply NoDup_snoc; [assumption|]. intros Hin.
      apply has_title_spec in Hin. congruence.
    + apply NoDup_snoc; [assumption|]. intros Hin.
      apply in_map_iff in Hin. destruct Hin as [r [Hid Hr]].
      rewrite Forall_forall in Hseq. specialize (Hseq r Hr). lia.
Qed.

Lemma failed_statement_constraints (f : Fault.t) (d : Db) :
  table_constraints d -> table_constraints (failed_statement f d).
Proof.
  intros [Htitles [Hids Hseq]]. unfold failed_statement.
  destruct (Fault.id_drawn f); [|now repeat split].
  repeat split; cbn [book book_id_seq]; try assumption.
  apply Forall_forall. intros r Hr. rewrite Forall_forall in Hseq.
  specialize (Hseq r Hr). lia.
Qed.

Lemma persisted_constraints (run_fault : nat -> option Fault.t) (book_data : list Book.t)
  (i : nat) (d : Db) :
  table_constraints d -> table_constraints (persisted run_fault book_data i d).
Proof.
  revert i d. induction book_data as [|b rest IH]; intros i d H; [assumption|].
  cbn [persisted]. apply IH. destruct (run_fault i) as [f|].
  - now apply failed_statement_constraints.
  - now apply insert_query_constraints.
Qed.

(** X15.  The insert task keeps the constraints the table is created
    with: if the titles of the rows are pairwise distinct, the ids are
    pairwise distinct and all below the next value of the sequence, then
    so they are after the task, whatever it pulls, whichever statements
    fail and whether it raises or not. *)
Theorem insert_keeps_table_constraints (run_fault : nat -> option Fault.t)
  (get_first_fault : option string) (ti : TaskInstance.t) (w : World) :
  table_constraints (db w) ->
  table_constraints (db (snd (insert_book_data_into_postgres run_fault get_first_fault ti w))).
Proof.
  intros H. rewrite insert_run_db.
  destruct (handoff w) as [[|b rest]|]; try assumption.
  now apply persisted_constraints.
Qed.

Lemma insert_keeps_table_constraints_witness :
  table_constraints
    (db (snd (insert_book_data_into_postgres first_fails None
                (TaskInstance.mk "insert_book_data") (world_with_handoff same_title_twice)))).
Proof.
  apply (insert_keeps_table_constraints first_fails None (TaskInstance.mk "insert_book_data")
           (world_with_handoff same_title_twice)).
  repeat split; constructor.
Defined.

(** ** What a batch leaves in the table *)

Lemma upsert_all_titles (books : list Book.t) (d : Db) (title : string) :
  In title (map Row.title (book (upsert_all books d))) <->
  In title (map Row.title (book d)) \/ In title (map Book.title books).
Proof.
  revert d. induction books as [|b books IH]; intros d; [simpl; tauto|].
  change (upsert_all (b :: books) d)
    with (upsert_all books (insert_query (parameters_of b) d)).
  rewrite IH, insert_query_titles. cbn [map In].
  destruct (has_title (Book.title b) d) eqn:E.
  - apply has_title_spec in E. split; [tauto|].
    intros [H | [<- | H]]; tauto.
  - rewrite in_app_iff. cbn [In]. tauto.
Qed.

(** X16.  After the insert task, no statement failing, the titles of the
    table are the titles it held and the titles of the batch, and no
    other. *)
Theorem insert_adds_the_titles_of_the_batch (ti : TaskInstance.t) (w : World)
  (book_data : list Book.t) (title : string) :
  handoff w = Some book_data ->
  let run := insert_book_data_into_postgres no_fault None ti w in
  In title (map Row.title (book (db (snd run)))) <->
  In title (map Row.title (book (db w))) \/ In title (map Book.title book_data).
Proof.
  intros Hpull run. subst run. rewrite insert_run_db, Hpull.
  destruct book_data as [|b rest]; [simpl; tauto|].
  replace (persisted no_fault (b :: rest) 0 (db w)) with (upsert_all (b :: rest) (db w))
    by (symmetry; now apply loop_without_fault).
  apply upsert_all_titles.
Qed.

Lemma insert_adds_the_titles_of_the_batch_witness :
  In "Second"
    (map Row.title
       (book (db (snd (insert_book_data_into_postgres no_fault None
                         (TaskInstance.mk "insert_book_data")
                         (world_with_handoff two_books)))))).
Proof.
  apply (insert_adds_the_titles_of_the_batch (TaskInstance.mk "insert_book_data")
           (world_with_handoff two_books) two_books "Second").
  - reflexivity.
  - right. simpl. tauto.
Defined.

Lemma last_with_title_snoc (title : string) (books : list Book.t) (b : Book.t) :
  last_with_title title (books ++ [b]) =
  if (Book.title b =? title)%string then Some b else last_with_title title books.
Proof.
  unfold last_with_title, first_with_title. now rewrite rev_app_distr.
Qed.

Lemma upsert_all_last_wins (books : list Book.t) (d : Db) (r : Row.t) :
  In r (book (upsert_all books d)) ->
  match last_with_title (Row.title r) books with
  | Some b => carries r b
  | None => In r (book d)
  end.
Proof.
  revert r. induction books as [|b books IH] using rev_ind; intros r Hr; [exact Hr|].
  rewrite upsert_all_app in Hr.
  change (upsert_all [b] (upsert_all books d))
    with (insert_query (parameters_of b) (upsert_all books d)) in Hr.
  rewrite last_with_title_snoc. rewrite insert_query_book in Hr.
  destruct (has_title (Book.title b) (upsert_all books d)) eqn:E.
  - apply in_map_iff in Hr. destruct Hr as [r0 [<- Hr0]].
    rewrite do_update_title.
    destruct (String.eqb_spec (Row.title r0) (Book.title b)) as [Heq | Hne].
    + rewrite <- Heq, String.eqb_refl.
      rewrite do_update_same_title by assumption. now repeat split.
    + rewrite do_update_other_title by assumption.
      destruct (String.eqb_spec (Book.title b) (Row.title r0)); [congruence|].
      now apply IH.
  - apply in_app_or in Hr. destruct Hr as [Hr | [<- | []]].
    + destruct (String.eqb_spec (Book.title b) (Row.title r)) as [Heq | Hne].
      * exfalso. assert (has_title (Book.title b) (upsert_all books d) = true); [|congruence].
        apply has_title_spec. rewrite Heq. now apply in_map.
      * now apply IH.
    + cbn [Row.title]. rewrite String.eqb_refl. now repeat split.
Qed.

(** X17.  Among the records of a batch that share a title, the last one
    wins: after the insert task, no statement failing, a row whose title
    is in the batch carries the author, price and rating of the last
    record of that title, and a row whose title is not in the batch is a
    row of the table before. *)
Theorem insert_last_record_wins (ti : TaskInstance.t) (w : World)
  (book_data : list Book.t) (r : Row.t) :
  handoff w = Some book_data ->
  let run := insert_book_data_into_postgres no_fault None ti w in
  In r (book (db (snd run))) ->
  match last_with_title (Row.title r) book_data with
  | Some b => carries r b
  | None => In r (book (db w))
  end.
Proof.
  intros Hpull run. subst run. rewrite insert_run_db, Hpull.
  destruct book_data as [|b rest]; [intros H; exact H|].
  replace (persisted no_fault (b :: rest) 0 (db w)) with (upsert_all (b :: rest) (db w))
    by (symmetry; now apply loop_without_fault).
  apply upsert_all_last_wins.
Qed.

Lemma insert_last_record_wins_witness :
  carries (Row.mk 1 "First" "B" "Free" "4/5 (1 reviews)")
          (Book.mk "First" "B" "Free" "4/5 (1 reviews)").
Proof.
  apply (insert_last_record_wins (TaskInstance.mk "insert_book_data")
           (world_with_handoff same_title_twice) same_title_twice
           (Row.mk 1 "First" "B" "Free" "4/5 (1 reviews)")).
  - reflexivity.
  - vm_compute. left. reflexivity.
Defined.

(** X18.  The statement of the insert task on a table that does not hold
    the title of the record: the rows of the table stay as they are, in
    place, and one row follows them, of the record's title, author, price
    and rating, its id the value of the sequence, which is not the id of
    any row before when the ids are below the sequence. *)
Theorem upsert_of_new_title_appends (b : Book.t) (d : Db) :
  has_title (Book.title b) d = false ->
  let d' := insert_query (parameters_of b) d in
  List.length (book d') = S (List.length (book d)) /\
  firstn (List.length (book d)) (book d') = book d /\
  (forall r, In r (book d') -> Row.title r = Book.title b ->
     Row.id r = book_id_seq d /\ carries r b) /\
  (Forall (fun r => Row.id r < book_id_seq d) (book d) ->
   ~ In (book_id_seq d) (map Row.id (book d))).
Proof.
  intros Hnew d'. subst d'. rewrite insert_query_book, Hnew.
  split; [rewrite length_app; simpl; lia|].
  split.
  { replace (List.length (book d)) with (List.length (book d) + 0)%nat by lia.
    rewrite firstn_app_2. simpl. apply app_nil_r. }
  split.
  - intros r Hr Ht. apply in_app_or in Hr. destruct Hr as [Hr | [<- | []]].
    + exfalso. assert (has_title (Book.title b) d = true); [|congruence].
      apply has_title_spec. rewrite <- Ht. now apply in_map.
    + now repeat split.
  - intros Hseq Hin. apply in_map_iff in Hin. destruct Hin as [r [Hid Hr]].
    rewrite Forall_forall in Hseq. specialize (Hseq r Hr). lia.
Qed.

Lemma upsert_of_new_title_appends_witness :
  List.length (book (insert_query (parameters_of (Book.mk "First" "A" "N/A" "N/A"))
                       (db world_with_old_row))) = 2%nat.
Proof.
  apply (upsert_of_new_title_appends (Book.mk "First" "A" "N/A" "N/A")
           (db world_with_old_row)).
  reflexivity.
Defined.

(** ** A DAG run *)

Lemma create_table_then (A : Type) (m : M A) (w : World) :
  bind create_table_task (fun _ => m) w
  = m (mkWorld (sent w) (xcom w) (mkDb [] 1) (log w)).
Proof. reflexivity. Qed.

(** X19.  With [generate_sample_book_data] unbound, as in [app.py], a DAG
    run that meets a degraded answer of the API (no response, a status
    other than 200, a body that is not JSON, an item that is not an
    object, or no item) ends in [NameError] with the table empty: the
    table was dropped and created again, and the insert task did not
    run. *)
Theorem dag_run_degraded_empties_table (network : Request.t -> http_result)
  (run_fault : nat -> option Fault.t) (get_first_fault : option string) (w : World) :
  degraded (network (request_for 25)) 25 = true ->
  let run := dag_run app_py_sample_binding network run_fault get_first_fault w in
  fst run = Raise (NameError "generate_sample_book_data") /\
  db (snd run) = mkDb [] 1 /\
  xcom (snd run) = xcom w.
Proof.
  intros Hdegraded run. subst run. unfold dag_run. rewrite create_table_then.
  unfold bind, fetch_book_data_task, app_py_sample_binding.
  destruct (fetch_degraded_unbound network 25 (TaskInstance.mk "fetch_book_data")
              (mkWorld (sent w) (xcom w) (mkDb [] 1) (log w)) Hdegraded) as [entries ->].
  now repeat split.
Qed.

Lemma dag_run_degraded_empties_table_witness :
  let run := dag_run app_py_sample_binding (answering http_500) no_fault None
               world_with_old_row in
  fst run = Raise (NameError "generate_sample_book_data") /\
  db (snd run) = mkDb [] 1 /\
  xcom (snd run) = xcom world_with_old_row.
Proof.
  apply (dag_run_degraded_empties_table (answering http_500) no_fault None world_with_old_row).
  reflexivity.
Defined.

Lemma rows_from_titles (id : Z) (books : list Book.t) :
  map Row.title (rows_from id books) = map Book.title books.
Proof.
  revert id. induction books as [|b books IH]; intros id; simpl; [reflexivity|].
  now rewrite IH.
Qed.

Lemma upsert_all_new_titles (books : list Book.t) (d : Db) :
  NoDup (map Book.title books) ->
  (forall b, In b books -> has_title (Book.title b) d = false) ->
  upsert_all books d
  = mkDb (book d ++ rows_from (book_id_seq d) books)%list
         (book_id_seq d + Z.of_nat (List.length books)).
Proof.
  revert d. induction books as [|b books IH]; intros d Hnd Hnew.
  - simpl. rewrite app_nil_r, Z.add_0_r. now destruct d.
  - change (upsert_all (b :: books) d)
      with (upsert_all books (insert_query (parameters_of b) d)).
    cbn [map] in Hnd. apply NoDup_cons_iff in Hnd. destruct Hnd as [Hb Hnd].
    rewrite IH.
    + rewrite insert_query_book, (Hnew b) by now left.
      unfold insert_query, parameters_of.
      fold (has_title (Book.title b) d). rewrite (Hnew b) by now left.
      cbn [book book_id_seq rows_from List.length]. rewrite <- app_assoc. cbn [app].
      f_equal. lia.
    + assumption.
    + intros b' Hb'.
      destruct (has_title (Book.title b') (insert_query (parameters_of b) d)) eqn:E;
        [|reflexivity].
      exfalso. apply has_title_spec in E. rewrite insert_query_titles in E.
      rewrite (Hnew b) in E by now left.
      apply in_app_or in E. destruct E as [E | [E | []]].
      * apply has_title_spec in E. rewrite (Hnew b') in E by now right. discriminate.
      * apply Hb. rewrite E. now apply in_map.
Qed.

Lemma not_degraded_parsed (answer : http_result) (num_books : Z) :
  degraded answer num_books = false ->
  exists b books, books_after_safety_net None answer num_books = Ok (b :: books).
Proof.
  unfold degraded, books_after_safety_net, books_after_try.
  destruct (parsed answer num_books) as [[|b books]|]; intros H; try discriminate.
  now exists b, books.
Qed.

Lemma dag_run_not_degraded (network : Request.t -> http_result)
  (run_fault : nat -> option Fault.t) (get_first_fault : option string) (w : World) :
  degraded (network (request_for 25)) 25 = false ->
  exists entries b books,
    dag_run None network run_fault get_first_fault w
    = insert_book_data_into_postgres run_fault get_first_fault
        (TaskInstance.mk "insert_book_data")
        (mkWorld (sent w ++ [request_for 25])%list
           (xcom_set ("fetch_book_data", "book_data") (normalize (b :: books) 25) (xcom w))
           (mkDb [] 1) (log w ++ entries)%list).
Proof.
  intros Hok. unfold dag_run. rewrite create_table_then.
  unfold fetch_book_data_task, insert_book_data_task. unfold bind at 1.
  destruct (fetch_run None network 25 (TaskInstance.mk "fetch_book_data")
              (mkWorld (sent w) (xcom w) (mkDb [] 1) (log w))) as [entries ->].
  destruct (not_degraded_parsed _ _ Hok) as [b [books ->]].
  now exists entries, b, books.
Qed.

(** X20.  With [generate_sample_book_data] unbound, as in [app.py], a DAG
    run that meets an answer of the API that is not degraded, no statement
    and no count query failing, ends well, and the table it leaves does
    not depend on the table before: it is what the upserts of the pushed
    records make of the empty table.  When the pushed titles are pairwise
    distinct, these are the pushed records in their order, with the ids
    1, 2, ... *)
Theorem dag_run_rebuilds_table (network : Request.t -> http_result) (w : World) :
  degraded (network (request_for 25)) 25 = false ->
  let run := dag_run app_py_sample_binding network no_fault None w in
  fst run = Ok tt /\
  exists book_data,
    handoff (snd run) = Some book_data /\
    book_data <> [] /\
    db (snd run) = upsert_all book_data (mkDb [] 1) /\
    (NoDup (map Book.title book_data) -> book (db (snd run)) = rows_from 1 book_data).
Proof.
  intros Hok run. subst run. unfold app_py_sample_binding.
  destruct (dag_run_not_degraded network no_fault None w Hok) as [entries [b [books ->]]].
  set (w' := mkWorld _ _ _ _).
  assert (Hne : normalize (b :: books) 25 <> [])
    by (apply normalize_nonempty; [lia | discriminate]).
  assert (Hpull : handoff w' = Some (normalize (b :: books) 25)).
  { unfold handoff, w'. cbn [xcom]. apply xcom_lookup_set. }
  destruct (normalize (b :: books) 25) as [|b0 rest] eqn:Hnorm; [congruence|].
  rewrite (insert_run_books no_fault (TaskInstance.mk "insert_book_data") w' b0 rest Hpull).
  cbn [fst snd db xcom].
  split; [reflexivity|]. exists (b0 :: rest).
  assert (Hdb : persisted no_fault (b0 :: rest) 0 (db w')
                = upsert_all (b0 :: rest) (mkDb [] 1)).
  { unfold w'. cbn [db]. now apply loop_without_fault. }
  split; [exact Hpull|]. split; [discriminate|]. split; [exact Hdb|].
  intros Hnd. rewrite Hdb, upsert_all_new_titles; [reflexivity | assumption | reflexivity].
Qed.

Lemma dag_run_rebuilds_table_witness :
  let run := dag_run app_py_sample_binding (answering one_volume) no_fault None
               world_with_old_row in
  fst run = Ok tt /\
  exists book_data,
    handoff (snd run) = Some book_data /\
    book_data <> [] /\
    db (snd run) = upsert_all book_data (mkDb [] 1) /\
    (NoDup (map Book.title book_data) -> book (db (snd run)) = rows_from 1 book_data).
Proof.
  apply (dag_run_rebuilds_table (answering one_volume) world_with_old_row).
  reflexivity.
Defined.
